(** * Session and token-rotation core of the auth-api service

    A shallow embedding of
      - auth-api/src/services/authService.js   (loginWithPassword, refreshSession,
                                                createCookieOptions, cryptoRandomId)
      - auth-api/src/middlewares/auth.js       (auth)
      - the OAuth controller                   (google, googleCallback)
    together with the properties the design document states about them.

    JavaScript values that may be [undefined]/[null] are [option]s; a
    [throw] is the [Throw] result of a state-and-exception monad whose
    state is the world the service runs in (user table, session table,
    wall clock, entropy source).  The [../utils/jwt], [../utils/crypto]
    and [bcrypt] functions are parameters of the development (class
    [TokenLib]); the session and user tables are modelled from the design
    document. *)

From Stdlib Require Import String Ascii List ZArith NArith Bool Lia.
From Stdlib Require Import DecimalString.
From Stdlib.Strings Require Byte.
Import ListNotations.

Local Open Scope string_scope.
Local Open Scope list_scope.

(* ------------------------------------------------------------------ *)
(** ** JavaScript values *)

(** A string-valued JS expression that may also be [undefined] or
    [null]. *)
Definition jsval := option string.

(** JS truthiness of such a value: [undefined], [null] and the empty
    string are falsy. *)
Definition truthy (v : jsval) : bool :=
  match v with
  | Some s => negb (s =? "")
  | None => false
  end.

(** Strict equality [===] on such values. *)
Definition jseq (a b : jsval) : bool :=
  match a, b with
  | Some x, Some y => x =? y
  | None, None => true
  | _, _ => false
  end.

(** [a || d] where [d] is a string literal. *)
Definition or_default (a : jsval) (d : string) : string :=
  match a with
  | Some s => if s =? "" then d else s
  | None => d
  end.

(** Thrown values.  The service throws [Error] objects carrying an ad hoc
    [status] field; library and runtime errors carry none. *)
Record JsError := mkError {
  err_name : string;
  err_message : string;
  err_status : option Z
}.

(** [const err = new Error(msg); err.status = 401; throw err] *)
Definition http_error (msg : string) (status : Z) : JsError :=
  mkError "Error" msg (Some status).

Definition InvalidCredentials : JsError := http_error "Invalid credentials" 401.
Definition SessionRevoked : JsError := http_error "Session revoked" 401.
Definition InvalidToken : JsError := http_error "Invalid refresh token" 401.

(** The closed set of tagged error kinds of the session lifecycle. *)
Definition tagged (e : JsError) : Prop :=
  e = InvalidCredentials \/ e = SessionRevoked \/ e = InvalidToken.

(** What the runtime throws for [user.id] when [user] is [null]. *)
Definition TypeError_null_id : JsError :=
  mkError "TypeError" "Cannot read properties of null (reading 'id')" None.

Inductive Result (A : Type) : Type :=
| Ok (a : A)
| Throw (e : JsError).
Arguments Ok {A} a.
Arguments Throw {A} e.

(* ------------------------------------------------------------------ *)
(** ** Data model *)

Module User.
Record t := mk {
  id : string;
  email : string;
  password_hash : jsval;   (* absent for identity-provider-only accounts *)
  name : string
}.
End User.

Module Session.
Record t := mk {
  id : nat;                (* record id assigned by the store *)
  user_id : jsval;
  jwt_id : jsval;
  ip : jsval;
  user_agent : jsval;
  refresh_hash : jsval;
  created_at : Z;
  revoked_at : option Z    (* a datetime of the store when present: truthy *)
}.

(** The same row with a revocation timestamp. *)
Definition revoke_at (ts : Z) (s : t) : t :=
  mk (id s) (user_id s) (jwt_id s) (ip s) (user_agent s) (refresh_hash s)
     (created_at s) (Some ts).
End Session.

(** The object literal handed to [createSession]. *)
Module NewSession.
Record t := mk {
  user_id : jsval;
  jwt_id : jsval;
  ip : jsval;
  user_agent : jsval;
  refresh_hash : jsval
}.
End NewSession.

Module AccessPayload.
Record t := mk { sub : jsval; email : jsval }.
End AccessPayload.

Module RefreshPayload.
Record t := mk { sub : jsval; jti : jsval }.
End RefreshPayload.

(** The [meta] argument of [loginWithPassword]. *)
Module Meta.
Record t := mk { ip : jsval; user_agent : jsval }.
End Meta.

(** What login and refresh return: [{ user, access, refresh }]. *)
Module AuthResult.
Record t := mk { user : User.t; access : string; refresh : string }.
End AuthResult.

(** The part of an Express request the handlers read. *)
Module Request.
Record t := mk {
  access_token : jsval;    (* req.cookies.access_token *)
  ip : jsval;              (* req.ip *)
  user_agent : jsval       (* req.get('user-agent') *)
}.
End Request.

Record Env := mkEnv { NODE_ENV : string; APP_URL : string }.

(* ------------------------------------------------------------------ *)
(** ** The world and the monad of the service *)

Record World := mkWorld {
  users : list User.t;          (* user table *)
  sessions : list Session.t;    (* session table, in insertion order *)
  now : Z;                      (* wall clock, milliseconds *)
  entropy : nat -> Byte.byte;   (* the operating system's random tape *)
  cursor : nat                  (* how much of the tape has been consumed *)
}.

Definition with_sessions (rows : list Session.t) (w : World) : World :=
  mkWorld (users w) rows (now w) (entropy w) (cursor w).

Definition with_users (us : list User.t) (w : World) : World :=
  mkWorld us (sessions w) (now w) (entropy w) (cursor w).

Definition with_now (t : Z) (w : World) : World :=
  mkWorld (users w) (sessions w) t (entropy w) (cursor w).

Definition with_cursor (c : nat) (w : World) : World :=
  mkWorld (users w) (sessions w) (now w) (entropy w) c.

(** A computation reads and writes the world and either returns or
    throws; writes made before a throw stay (there is no rollback). *)
Definition M (A : Type) : Type := World -> Result A * World.

Definition ret {A} (a : A) : M A := fun w => (Ok a, w).

Definition throw {A} (e : JsError) : M A := fun w => (Throw e, w).

Definition bind {A B} (m : M A) (k : A -> M B) : M B :=
  fun w =>
    match m w with
    | (Ok a, w') => k a w'
    | (Throw e, w') => (Throw e, w')
    end.

Declare Scope js_scope.
Delimit Scope js_scope with js.
Notation "x <- m ;; k" := (bind m (fun x => k))
  (at level 100, m at next level, right associativity) : js_scope.
Notation "m ;;; k" := (bind m (fun _ => k))
  (at level 100, right associativity) : js_scope.
Local Open Scope js_scope.

Definition clock : M Z := fun w => (Ok (now w), w).

(* ------------------------------------------------------------------ *)
(** ** User table ([../models/userModel]) *)

Definition lower_ascii (c : ascii) : ascii :=
  let n := nat_of_ascii c in
  if andb (Nat.leb 65 n) (Nat.leb n 90) then ascii_of_nat (n + 32) else c.

Fixpoint lower (s : string) : string :=
  match s with
  | EmptyString => EmptyString
  | String c s' => String (lower_ascii c) (lower s')
  end.

(** Modelled from the spec: the [findUserByEmail] query of
    [../models/userModel], which is not part of the sources at hand.  The
    email is the unique, case-insensitive key of a user; the query yields
    the user or [null]. *)
Definition findUserByEmail (email : string) : M (option User.t) :=
  fun w =>
    (Ok (find (fun u => lower (User.email u) =? lower email) (users w)), w).

(** Modelled from the spec: the [findUserById] query of
    [../models/userModel]; it yields the current user record for an id, or
    [null] when there is none (also for an [undefined] id). *)
Definition findUserById (id : jsval) : M (option User.t) :=
  fun w =>
    (Ok (find (fun u => jseq (Some (User.id u)) id) (users w)), w).

(* ------------------------------------------------------------------ *)
(** ** Session table ([../models/sessionModel]) *)

(** Modelled from the spec: the error a [create] raises for a token
    identifier that already exists ([Conflict], surfaced as 409). *)
Definition Conflict : JsError := mkError "Conflict" "Conflict" (Some 409%Z).

Definition has_jti (jti : jsval) (s : Session.t) : bool :=
  jseq (Session.jwt_id s) jti.

(** A record id no row of the table carries. *)
Definition fresh_id (rows : list Session.t) : nat :=
  S (list_max (map Session.id rows)).

(** Modelled from the spec: [findByJti(jti) -> Session | absent] of the
    Session Store, which is not part of the sources at hand. *)
Definition findSessionByJti (jti : jsval) : M (option Session.t) :=
  fun w => (Ok (find (has_jti jti) (sessions w)), w).

(** One row under [revoke(sessionId)] at time [ts]: the row with that id
    gets the timestamp unless it already has one. *)
Definition revoke_row (sid : nat) (ts : Z) (s : Session.t) : Session.t :=
  if Nat.eqb (Session.id s) sid then
    match Session.revoked_at s with
    | None => Session.revoke_at ts s
    | Some _ => s
    end
  else s.

(** Modelled from the spec: [revoke(sessionId)] of the Session Store: sets
    the revocation timestamp; revoking an already revoked (or an absent)
    session is a no-op, not an error. *)
Definition revokeSession (sid : nat) : M unit :=
  fun w =>
    (Ok tt, with_sessions (map (revoke_row sid (now w)) (sessions w)) w).

(** Modelled from the spec: [create(userId, jti, ip, userAgent,
    refreshHash) -> Session] of the Session Store: inserts a new active
    session and fails with [Conflict] when the token identifier already
    exists. *)
Definition createSession (f : NewSession.t) : M Session.t :=
  fun w =>
    if existsb (has_jti (NewSession.jwt_id f)) (sessions w) then
      (Throw Conflict, w)
    else
      let row := Session.mk (fresh_id (sessions w)) (NewSession.user_id f)
                   (NewSession.jwt_id f) (NewSession.ip f)
                   (NewSession.user_agent f) (NewSession.refresh_hash f)
                   (now w) None in
      (Ok row, with_sessions (sessions w ++ [row]) w).

(* ------------------------------------------------------------------ *)
(** ** Entropy: [require('crypto').randomBytes(n).toString('hex')] *)

Definition hex_digit (n : N) : ascii :=
  if (n <? 10)%N then ascii_of_N (48 + n) else ascii_of_N (87 + n).

Fixpoint toHex (bs : list Byte.byte) : string :=
  match bs with
  | [] => EmptyString
  | b :: bs' =>
      let n := Byte.to_N b in
      String (hex_digit (n / 16)) (String (hex_digit (n mod 16)) (toHex bs'))
  end.

Definition randomBytes (n : nat) : M (list Byte.byte) :=
  fun w =>
    (Ok (map (entropy w) (seq (cursor w) n)), with_cursor (cursor w + n) w).

(** authService.js, [cryptoRandomId]. *)
Definition cryptoRandomId : M string :=
  bs <- randomBytes 16 ;;
  ret (toHex bs).

(** The identifier [cryptoRandomId] draws in world [w]. *)
Definition drawn (w : World) : string :=
  toHex (map (entropy w) (seq (cursor w) 16)).
Arguments drawn : simpl never.

(* ------------------------------------------------------------------ *)
(** ** The token library *)

(** The functions of [../utils/jwt], [../utils/crypto] and [bcrypt] the
    service calls.  Signing and verification read the clock (expiry);
    verification throws on a token it does not accept. *)
Class TokenLib := {
  signAccessToken : Z -> AccessPayload.t -> string;
  signRefreshToken : Z -> RefreshPayload.t -> string;
  verifyAccessToken : Z -> string -> Result AccessPayload.t;
  verifyRefreshToken : Z -> string -> Result RefreshPayload.t;
  hashToken : string -> string;
  bcrypt_compare : string -> string -> bool
}.

(** [createCookieOptions] return value. *)
Record CookieOptions := mkCookieOptions {
  httpOnly : bool;
  sameSite : string;
  secure : bool;
  maxAge : Z;
  path : string
}.

Record Cookie := mkCookie {
  cookie_name : string;
  cookie_value : string;
  cookie_options : CookieOptions
}.

(** What an Express handler did with the request. *)
Inductive HandlerOutcome :=
| NextCalled (err : JsError)      (* next(err) *)
| Redirected (cookies : list Cookie) (location : string)
                                  (* res.cookie(...)*; res.redirect(location) *)
| Rejected (err : JsError).       (* the async callback threw *)

(** What the [auth] middleware did with the request. *)
Inductive AuthOutcome :=
| Responded (status : Z) (error : string)   (* res.status(s).json({ error }) *)
| Attached (user : User.t).                 (* req.user = user; next() *)

Section Service.

Context {lib : TokenLib}.
Variable env : Env.

Definition signAccess (p : AccessPayload.t) : M string :=
  fun w => (Ok (signAccessToken (now w) p), w).

Definition signRefresh (p : RefreshPayload.t) : M string :=
  fun w => (Ok (signRefreshToken (now w) p), w).

Definition verifyAccess (token : string) : M AccessPayload.t :=
  fun w => (verifyAccessToken (now w) token, w).

Definition verifyRefresh (token : string) : M RefreshPayload.t :=
  fun w => (verifyRefreshToken (now w) token, w).

(** authService.js, [createCookieOptions]. *)
Definition createCookieOptions (isRefresh : bool) : CookieOptions :=
  let maxAge := if isRefresh then (1000 * 60 * 60 * 24 * 30)%Z
                else (1000 * 60 * 15)%Z in
  mkCookieOptions true "lax" (NODE_ENV env =? "production") maxAge "/".

(** authService.js, [loginWithPassword]. *)
Definition loginWithPassword (email password : string) (meta : Meta.t)
  : M AuthResult.t :=
  user <- findUserByEmail email ;;
  match user with
  | None => throw InvalidCredentials
  | Some user =>
    match User.password_hash user with
    | None => throw InvalidCredentials
    | Some password_hash =>
      if password_hash =? "" then throw InvalidCredentials else
      if negb (bcrypt_compare password password_hash)
      then throw InvalidCredentials else
      jwt_id <- cryptoRandomId ;;
      access <- signAccess (AccessPayload.mk (Some (User.id user))
                                             (Some (User.email user))) ;;
      refresh <- signRefresh (RefreshPayload.mk (Some (User.id user))
                                                (Some jwt_id)) ;;
      createSession (NewSession.mk (Some (User.id user)) (Some jwt_id)
                       (Meta.ip meta) (Meta.user_agent meta)
                       (Some (hashToken refresh))) ;;;
      ret (AuthResult.mk user access refresh)
    end
  end.

(** authService.js, [refreshSession]. *)
Definition refreshSession (refreshToken : string) : M AuthResult.t :=
  payload <- verifyRefresh refreshToken ;;
  session <- findSessionByJti (RefreshPayload.jti payload) ;;
  match session with
  | None => throw SessionRevoked
  | Some session =>
    match Session.revoked_at session with
    | Some _ => throw SessionRevoked
    | None =>
      if negb (jseq (Session.refresh_hash session)
                    (Some (hashToken refreshToken)))
      then throw InvalidToken else
      user <- findUserById (RefreshPayload.sub payload) ;;
      newJwtId <- cryptoRandomId ;;
      match user with
      | None => throw TypeError_null_id
      | Some user =>
        access <- signAccess (AccessPayload.mk (Some (User.id user))
                                               (Some (User.email user))) ;;
        refresh <- signRefresh (RefreshPayload.mk (Some (User.id user))
                                                  (Some newJwtId)) ;;
        revokeSession (Session.id session) ;;;
        createSession (NewSession.mk (Some (User.id user)) (Some newJwtId)
                         (Session.ip session) (Session.user_agent session)
                         (Some (hashToken refresh))) ;;;
        ret (AuthResult.mk user access refresh)
      end
    end
  end.

(** middlewares/auth.js, [auth]: every throw inside the [try] ends in the
    same 401 response. *)
Definition auth (req : Request.t) : World -> AuthOutcome :=
  fun w =>
    let token := or_default (Request.access_token req) "" in
    if token =? "" then Responded 401 "Unauthorized" else
    match (payload <- verifyAccess token ;;
           findUserById (AccessPayload.sub payload)) w with
    | (Ok None, _) => Responded 401 "Unauthorized"
    | (Ok (Some user), _) => Attached user
    | (Throw _, _) => Responded 401 "Unauthorized"
    end.

(** The OAuth controller, [googleCallback]: the callback passport invokes
    with [(err, user)].  On a failed authentication passport passes
    [user = false], here [None]; a property read on [false] is
    [undefined], it does not throw. *)
Definition googleCallback (req : Request.t) (err : option JsError)
  (user : option User.t) : World -> HandlerOutcome * World :=
  fun w =>
    match err with
    | Some e => (NextCalled e, w)
    | None =>
      let user_id := option_map User.id user in
      let user_email := option_map User.email user in
      match (jwt_id <- cryptoRandomId ;;
             access <- signAccess (AccessPayload.mk user_id user_email) ;;
             refresh <- signRefresh (RefreshPayload.mk user_id (Some jwt_id)) ;;
             createSession (NewSession.mk user_id (Some jwt_id)
                              (Request.ip req)
                              (Some (or_default (Request.user_agent req)
                                                "unknown"))
                              (Some (hashToken refresh))) ;;;
             ret (access, refresh)) w with
      | (Ok (access, refresh), w') =>
          (Redirected
             [ mkCookie "access_token" access (createCookieOptions false);
               mkCookie "refresh_token" refresh (createCookieOptions true) ]
             (APP_URL env ++ "/notebooks"), w')
      | (Throw e, w') => (Rejected e, w')
      end
    end.

End Service.


(* ------------------------------------------------------------------ *)
(** ** Histories of the service, and concurrent refreshes *)

Section Histories.

Context {lib : TokenLib}.
Variable env : Env.

(** What can happen to the world between two requests. *)
Inductive Event :=
| Login (email password : string) (meta : Meta.t)
| Refresh (refreshToken : string)
| GoogleCallback (req : Request.t) (err : option JsError)
    (user : option User.t)
| Revoke (sid : nat)                  (* logout revokes a session *)
| Elapse (t : Z)                      (* the clock reads [t] from now on *)
| UsersChanged (us : list User.t).    (* registration, deletion, ... *)

Definition happen (w : World) (e : Event) : World :=
  match e with
  | Login email password meta => snd (loginWithPassword email password meta w)
  | Refresh refreshToken => snd (refreshSession refreshToken w)
  | GoogleCallback req err user => snd (googleCallback env req err user w)
  | Revoke sid => snd (revokeSession sid w)
  | Elapse t => with_now t w
  | UsersChanged us => with_users us w
  end.

Definition history (es : list Event) (w : World) : World :=
  fold_left happen es w.

(** [refreshSession] cut at its [await]s: the store operation awaited at a
    point runs when the task is resumed there. *)
Inductive RefreshTask :=
| AtFindSession (refreshToken : string)
| AtFindUser (payload : RefreshPayload.t) (session : Session.t)
| AtRevoke (session : Session.t) (r : AuthResult.t) (newJwtId : string)
| AtCreate (session : Session.t) (r : AuthResult.t) (newJwtId : string)
| Settled (r : Result AuthResult.t).

(** Lines 51 to 62: verify, look the session up, check it. *)
Definition lookup_segment (refreshToken : string)
  : M (RefreshPayload.t * Session.t) :=
  payload <- verifyRefresh refreshToken ;;
  session <- findSessionByJti (RefreshPayload.jti payload) ;;
  match session with
  | None => throw SessionRevoked
  | Some session =>
    match Session.revoked_at session with
    | Some _ => throw SessionRevoked
    | None =>
      if negb (jseq (Session.refresh_hash session)
                    (Some (hashToken refreshToken)))
      then throw InvalidToken else ret (payload, session)
    end
  end.

(** Lines 63 to 66: look the user up, draw the identifier, sign. *)
Definition issue_segment (payload : RefreshPayload.t)
  : M (AuthResult.t * string) :=
  user <- findUserById (RefreshPayload.sub payload) ;;
  newJwtId <- cryptoRandomId ;;
  match user with
  | None => throw TypeError_null_id
  | Some user =>
    access <- signAccess (AccessPayload.mk (Some (User.id user))
                                           (Some (User.email user))) ;;
    refresh <- signRefresh (RefreshPayload.mk (Some (User.id user))
                                              (Some newJwtId)) ;;
    ret (AuthResult.mk user access refresh, newJwtId)
  end.

(** Lines 69 to 75. *)
Definition create_segment (session : Session.t) (r : AuthResult.t)
  (newJwtId : string) : M Session.t :=
  createSession (NewSession.mk (Some (User.id (AuthResult.user r)))
                   (Some newJwtId)
                   (Session.ip session) (Session.user_agent session)
                   (Some (hashToken (AuthResult.refresh r)))).

Definition resume (t : RefreshTask) (w : World) : RefreshTask * World :=
  match t with
  | AtFindSession refreshToken =>
      match lookup_segment refreshToken w with
      | (Ok (payload, session), w') => (AtFindUser payload session, w')
      | (Throw e, w') => (Settled (Throw e), w')
      end
  | AtFindUser payload session =>
      match issue_segment payload w with
      | (Ok (r, newJwtId), w') => (AtRevoke session r newJwtId, w')
      | (Throw e, w') => (Settled (Throw e), w')
      end
  | AtRevoke session r newJwtId =>
      match revokeSession (Session.id session) w with
      | (Ok _, w') => (AtCreate session r newJwtId, w')
      | (Throw e, w') => (Settled (Throw e), w')
      end
  | AtCreate session r newJwtId =>
      match create_segment session r newJwtId w with
      | (Ok _, w') => (Settled (Ok r), w')
      | (Throw e, w') => (Settled (Throw e), w')
      end
  | Settled r => (Settled r, w)
  end.

(** Two refresh calls in flight on one event loop. *)
Inductive Turn := First | Second.

Record Pool := mkPool {
  world : World;
  first : RefreshTask;
  second : RefreshTask
}.

Definition turn (p : Pool) (t : Turn) : Pool :=
  match t with
  | First => let (a, w) := resume (first p) (world p) in mkPool w a (second p)
  | Second => let (b, w) := resume (second p) (world p) in mkPool w (first p) b
  end.

Definition schedule (ts : list Turn) (p : Pool) : Pool := fold_left turn ts p.

Definition succeeded (t : RefreshTask) : Prop :=
  exists r, t = Settled (Ok r).

End Histories.

(* ------------------------------------------------------------------ *)
(** ** How the session table may change *)

(** A row keeps every field; only an absent revocation timestamp may be
    set. *)
Definition row_step (s s' : Session.t) : Prop :=
  s' = s \/
  (Session.revoked_at s = None /\ exists ts, s' = Session.revoke_at ts s).

(** A row that has both its token identifier and its refresh hash. *)
Definition complete (s : Session.t) : Prop :=
  Session.jwt_id s <> None /\ Session.refresh_hash s <> None.

(** The table is append only, old rows change by [row_step], and the
    rows written are complete. *)
Definition evolves (rows rows' : list Session.t) : Prop :=
  exists old new,
    rows' = old ++ new /\ Forall2 row_step rows old /\ Forall complete new.

(** The rows of [w'] that [w] did not have. *)
Definition written (w w' : World) : list Session.t :=
  skipn (List.length (sessions w)) (sessions w').

(** A session of the table that is active. *)
Definition active (s : Session.t) : bool :=
  match Session.revoked_at s with None => true | Some _ => false end.

(** Computations under which the session table evolves. *)
Definition steady {A} (m : M A) : Prop :=
  forall w, evolves (sessions w) (sessions (snd (m w))).

(** The state of two refreshes of one token once the first has run
    [revokeSession] on session [s] of the table [rows] it started from:
    the clock reads [t0]; the table is [rows] with [s] revoked, plus the
    one row the first call may have created; the second call has not
    looked the session up yet, or has met the revoked session. *)
Definition race_inv (refreshToken : string) (payload : RefreshPayload.t)
  (t0 : Z) (rows : list Session.t) (s : Session.t) (r : AuthResult.t)
  (j : string) (p : Pool) : Prop :=
  now (world p) = t0 /\
  ((first p = AtCreate s r j /\
    sessions (world p) = map (revoke_row (Session.id s) t0) rows) \/
   (first p = Settled (Ok r) /\
    exists row,
      sessions (world p) = map (revoke_row (Session.id s) t0) rows ++ [row]) \/
   (first p = Settled (Throw Conflict) /\
    sessions (world p) = map (revoke_row (Session.id s) t0) rows)) /\
  (second p = AtFindSession refreshToken \/
   second p = Settled (Throw SessionRevoked)).

(** Two refreshes of one token in world [w], the first resumed three
    times (lookup, user and token issue, revoke), the second not yet. *)
Definition after_revoke {lib : TokenLib} (refreshToken : string) (w : World)
  : Pool :=
  schedule [First; First; First]
    (mkPool w (AtFindSession refreshToken) (AtFindSession refreshToken)).

(* ------------------------------------------------------------------ *)
(** ** A concrete token library and world, for running the service *)

(** A small token library whose refresh and access tokens carry their
    expiry, and a world with two users, on which the service can be
    evaluated.  The properties below are proved for every token library;
    this one only provides the inputs at which they are run. *)
Module Sample.

(** [undefined] prints as the empty field. *)
Definition field (v : jsval) : string :=
  match v with Some s => s | None => "" end.

Definition unfield (s : string) : jsval :=
  if s =? "" then None else Some s.

Fixpoint split_bar_aux (acc : string -> string) (s : string) : list string :=
  match s with
  | EmptyString => [acc EmptyString]
  | String c s' =>
      if Ascii.eqb c "|"%char
      then acc EmptyString :: split_bar_aux (fun x => x) s'
      else split_bar_aux (fun x => acc (String c x)) s'
  end.

Definition split_bar (s : string) : list string :=
  split_bar_aux (fun x => x) s.

Definition print_ms (t : Z) : string :=
  NilZero.string_of_uint (N.to_uint (Z.to_N t)).

Definition parse_ms (s : string) : option Z :=
  option_map (fun u => Z.of_N (N.of_uint u)) (NilZero.uint_of_string s).

Definition access_ttl : Z := 1000 * 60 * 15.
Definition refresh_ttl : Z := 1000 * 60 * 60 * 24 * 30.

Definition TokenExpiredError : JsError :=
  mkError "TokenExpiredError" "jwt expired" None.
Definition JsonWebTokenError : JsError :=
  mkError "JsonWebTokenError" "invalid token" None.

(** A token is [kind|first|second|expiry]; the signature is left out. *)
Definition sign (kind : string) (a b : jsval) (exp : Z) : string :=
  kind ++ "|" ++ field a ++ "|" ++ field b ++ "|" ++ print_ms exp.

Definition verify (kind : string) (t : Z) (token : string)
  : Result (jsval * jsval) :=
  match split_bar token with
  | [k; a; b; e] =>
      if k =? kind then
        match parse_ms e with
        | Some exp =>
            if (t <? exp)%Z then Ok (unfield a, unfield b)
            else Throw TokenExpiredError
        | None => Throw JsonWebTokenError
        end
      else Throw JsonWebTokenError
  | _ => Throw JsonWebTokenError
  end.

#[local] Instance lib : TokenLib := {|
  signAccessToken t p :=
    sign "a" (AccessPayload.sub p) (AccessPayload.email p) (t + access_ttl);
  signRefreshToken t p :=
    sign "r" (RefreshPayload.sub p) (RefreshPayload.jti p) (t + refresh_ttl);
  verifyAccessToken t token :=
    match verify "a" t token with
    | Ok (a, b) => Ok (AccessPayload.mk a b)
    | Throw e => Throw e
    end;
  verifyRefreshToken t token :=
    match verify "r" t token with
    | Ok (a, b) => Ok (RefreshPayload.mk a b)
    | Throw e => Throw e
    end;
  hashToken s := ("sha256(" ++ s ++ ")")%string;
  bcrypt_compare password hash :=
    (hash =? "bcrypt(" ++ password ++ ")")%string
|}.

Definition env : Env := mkEnv "production" "https://app.example".

Definition alice : User.t :=
  User.mk "user:1" "a@x.com" (Some "bcrypt(correct)") "Alice".

(** An account created by the identity-provider bridge. *)
Definition bob : User.t := User.mk "user:2" "b@x.com" None "Bob".

Definition tape (k : nat) : Byte.byte :=
  match Byte.of_N (N.of_nat k mod 256) with
  | Some b => b
  | None => Byte.x00
  end.

Definition meta : Meta.t := Meta.mk (Some "10.0.0.7") (Some "curl/8").

(** No session yet. *)
Definition w0 : World := mkWorld [alice; bob] [] 0 tape 0.

(** What Alice's login in [w0] returns and writes. *)
Definition jti0 : string := "000102030405060708090a0b0c0d0e0f".
Definition access0 : string := "a|user:1|a@x.com|900000".
Definition refresh0 : string :=
  "r|user:1|000102030405060708090a0b0c0d0e0f|2592000000".
Definition r0 : AuthResult.t := AuthResult.mk alice access0 refresh0.
Definition payload0 : RefreshPayload.t :=
  RefreshPayload.mk (Some "user:1") (Some jti0).
Definition session0 : Session.t :=
  Session.mk 1 (Some "user:1") (Some jti0) (Some "10.0.0.7") (Some "curl/8")
    (Some "sha256(r|user:1|000102030405060708090a0b0c0d0e0f|2592000000)")
    0 None.

(** After Alice logged in. *)
Definition w1 : World :=
  snd (loginWithPassword "a@x.com" "correct" meta w0).

(** What her first refresh returns. *)
Definition refresh1 : string :=
  "r|user:1|101112131415161718191a1b1c1d1e1f|2592000000".
Definition r1 : AuthResult.t := AuthResult.mk alice access0 refresh1.

(** After Alice used her refresh token once. *)
Definition w2 : World := snd (refreshSession refresh0 w1).

(** Thirty days later. *)
Definition w3 : World := history env [Elapse refresh_ttl] w2.

(** [w1] after Alice's user record was deleted. *)
Definition w1_orphan : World := with_users [bob] w1.

(** An error passport hands to the callback. *)
Definition provider_error : JsError :=
  mkError "TokenError" "Bad Request" None.

(** Two refreshes of [refresh0] in [w1], resumed in turn. *)
Definition race : Pool :=
  schedule [First; Second; First; Second; First; Second; First; Second]
    (mkPool w1 (AtFindSession refresh0) (AtFindSession refresh0)).

End Sample.

From Stdlib Require Import ZifyBool.

(* ------------------------------------------------------------------ *)
(** ** Counting sessions, shapes of identifiers, well-formed tables *)

(** How many sessions of a table are active. *)
Definition active_count (rows : list Session.t) : nat :=
  List.length (filter active rows).

(** A character of [0-9a-f]. *)
Definition is_lower_hex (c : ascii) : bool :=
  let n := N_of_ascii c in
  (((48 <=? n) && (n <=? 57)) || ((97 <=? n) && (n <=? 102)))%N.

(** No two rows share a record id, or a token identifier. *)
Definition unique_ids (rows : list Session.t) : Prop :=
  NoDup (map Session.id rows).

Definition unique_jtis (rows : list Session.t) : Prop :=
  NoDup (map Session.jwt_id rows).

Definition well_formed (rows : list Session.t) : Prop :=
  unique_ids rows /\ unique_jtis rows.

(** Computations that keep a property of the session table. *)
Definition keeps {A} (P : list Session.t -> Prop) (m : M A) : Prop :=
  forall w, P (sessions w) -> P (sessions (snd (m w))).

(** The value of a hexadecimal digit of [0-9a-f]. *)
Definition hex_value (c : ascii) : N :=
  let n := N_of_ascii c in
  if (n <? 58)%N then (n - 48)%N else (n - 87)%N.

(* ------------------------------------------------------------------ *)
(** ** Connecting to the database ([initSurreal]) *)

Module Surreal.

(** The fields of [env] the function reads. *)
Record Config := mkConfig {
  SURREAL_URL : string;
  SURREAL_USER : string;
  SURREAL_PASS : string;
  SURREAL_NAMESPACE : string;
  SURREAL_DATABASE : string
}.

(** An object literal of string fields, keys in the order written. *)
Definition Payload := list (string * string).

(** What a call may reject with, and [lastError] hold: a promise
    rejects with any value, not only with an error object, and line 83
    tests the value for truthiness.  Numbers are the integers and
    [NaN]. *)
Inductive Value :=
| Undefined
| Null
| Boolean (b : bool)
| Number (n : Z)
| NotANumber
| Text (s : string)
| Object (e : JsError).

Definition truthy_value (v : Value) : bool :=
  match v with
  | Undefined | Null | NotANumber => false
  | Boolean b => b
  | Number n => negb (n =? 0)%Z
  | Text s => negb (s =? "")%string
  | Object _ => true
  end.

(** [a || b] *)
Definition or_else (a b : Value) : Value :=
  if truthy_value a then a else b.

(** The client as one run of [initSurreal] meets it: what each call
    rejects with, [None] when it resolves. *)
Record Client := mkClient {
  connect : string -> option Value;
  signin : Payload -> option Value;
  use : Payload -> option Value
}.

(** What a run does to the outside, in order. *)
Inductive Effect :=
| SetWebSocket                         (* global.WebSocket = WebSocket *)
| Connect (url : string)
| Signin (payload : Payload)
| Use (payload : Payload)
| ConsoleError (message : string) (error : Value)
| SetTimeout (ms : Z).                 (* setTimeout(initSurreal, ms) *)

Inductive Outcome := Ready | Retrying.

Definition signinAttempts (env : Config) : list Payload :=
  [ [("username", SURREAL_USER env); ("password", SURREAL_PASS env)];
    [("user", SURREAL_USER env); ("pass", SURREAL_PASS env)];
    [("username", SURREAL_USER env); ("password", SURREAL_PASS env);
     ("namespace", SURREAL_NAMESPACE env);
     ("database", SURREAL_DATABASE env)];
    [("user", SURREAL_USER env); ("pass", SURREAL_PASS env);
     ("ns", SURREAL_NAMESPACE env); ("db", SURREAL_DATABASE env)];
    [("user", SURREAL_USER env); ("pass", SURREAL_PASS env);
     ("NS", SURREAL_NAMESPACE env); ("DB", SURREAL_DATABASE env)] ].

(** The [for ... of] loop of lines 72 to 80: the calls made, and
    [signedIn] and [lastError] when it is left. *)
Fixpoint signin_loop (c : Client) (attempts : list Payload)
  (lastError : Value) : list Effect * bool * Value :=
  match attempts with
  | [] => ([], false, lastError)
  | payload :: rest =>
      match signin c payload with
      | None => ([Signin payload], true, lastError)
      | Some signinError =>
          let '(effects, signedIn, last) :=
            signin_loop c rest signinError in
          (Signin payload :: effects, signedIn, last)
      end
  end.

Definition retry_message : string :=
  "SurrealDB connection failed, retrying in 5s:".

Definition signin_failed : JsError :=
  mkError "Error" "SurrealDB signin failed" None.

(** The [catch] of lines 88 to 91. *)
Definition retry (error : Value) : list Effect :=
  [ConsoleError retry_message error; SetTimeout 5000].

(** One run of [initSurreal]; [hasWebSocket] tells whether
    [global.WebSocket] is set when it starts. *)
Definition initSurreal (env : Config) (hasWebSocket : bool) (c : Client)
  : list Effect * Outcome :=
  let polyfill := if hasWebSocket then [] else [SetWebSocket] in
  match connect c (SURREAL_URL env) with
  | Some error =>
      (polyfill ++ Connect (SURREAL_URL env) :: retry error, Retrying)
  | None =>
      let '(signins, signedIn, lastError) :=
        signin_loop c (signinAttempts env) Null in
      if negb signedIn then
        (* throw lastError || new Error('SurrealDB signin failed') *)
        let error := or_else lastError (Object signin_failed) in
        (polyfill ++ Connect (SURREAL_URL env) :: signins ++ retry error,
         Retrying)
      else
        let target := [("namespace", SURREAL_NAMESPACE env);
                       ("database", SURREAL_DATABASE env)] in
        match use c target with
        | Some error =>
            (polyfill ++ Connect (SURREAL_URL env) :: signins
             ++ Use target :: retry error, Retrying)
        | None =>
            (polyfill ++ Connect (SURREAL_URL env) :: signins
             ++ [Use target], Ready)
        end
  end.

(** The runs the timer chains: run [k] meets the client as it is then,
    [clients k]; at most [fuel] runs are followed. *)
Fixpoint runs (env : Config) (clients : nat -> Client) (fuel k : nat)
  (hasWebSocket : bool) : list Effect * Outcome :=
  match fuel with
  | O => ([], Retrying)
  | S fuel' =>
      match initSurreal env hasWebSocket (clients k) with
      | (effects, Ready) => (effects, Ready)
      | (effects, Retrying) =>
          let (more, outcome) := runs env clients fuel' (S k) true in
          (effects ++ more, outcome)
      end
  end.

Definition is_timeout (e : Effect) : bool :=
  match e with SetTimeout _ => true | _ => false end.

Definition is_signin (e : Effect) : bool :=
  match e with Signin _ => true | _ => false end.

(** A client that lets a run through. *)
Definition lets_in (env : Config) (c : Client) : Prop :=
  connect c (SURREAL_URL env) = None /\
  (exists payload, In payload (signinAttempts env) /\
                   signin c payload = None) /\
  use c [("namespace", SURREAL_NAMESPACE env);
         ("database", SURREAL_DATABASE env)] = None.

(** A payload the client rejects. *)
Definition rejected (c : Client) (p : Payload) : Prop := signin c p <> None.

(** The value of the last rejected attempt. *)
Fixpoint last_rejection (c : Client) (tried : list Payload)
  (last : Value) : Value :=
  match tried with
  | [] => last
  | p :: rest =>
      last_rejection c rest
        (match signin c p with Some e => e | None => last end)
  end.

(** The argument of [use], and the last payload tried. *)
Definition target (env : Config) : Payload :=
  [("namespace", SURREAL_NAMESPACE env); ("database", SURREAL_DATABASE env)].

Definition fifth (env : Config) : Payload :=
  [("user", SURREAL_USER env); ("pass", SURREAL_PASS env);
   ("NS", SURREAL_NAMESPACE env); ("DB", SURREAL_DATABASE env)].

(** A configuration, and clients to run it against: one that accepts
    only the [ns]/[db] shape of the sign-in payload, one that rejects
    every shape with an error, one that rejects every shape with
    [undefined], and a server that is down for the first two runs. *)
Definition sample_env : Config :=
  mkConfig "ws://surrealdb:8000/rpc" "root" "secret" "open_notebook" "auth".

Definition refused (what : string) : Value :=
  Object (mkError "ResponseError" what None).

Definition has_key (k : string) (p : Payload) : bool :=
  existsb (fun kv => String.eqb (fst kv) k) p.

Definition picky : Client :=
  mkClient (fun _ => None)
    (fun p => if has_key "ns" p then None
              else Some (refused "There was a problem with authentication"))
    (fun _ => None).

Definition deaf : Client :=
  mkClient (fun _ => None)
    (fun p => Some (refused (if has_key "DB" p then "fifth" else "earlier")))
    (fun _ => None).

Definition mute : Client :=
  mkClient (fun _ => None) (fun _ => Some Undefined) (fun _ => None).

Definition down : Client :=
  mkClient (fun _ => Some (refused "ECONNREFUSED")) (fun _ => None)
    (fun _ => None).

Definition booting (k : nat) : Client :=
  if Nat.ltb k 2 then down else picky.

End Surreal.

(* ------------------------------------------------------------------ *)
(** ** The frontend's auth store ([useAuthStore]) *)

Module AuthStore.

Local Open Scope string_scope.

Record State := mkState {
  isAuthenticated : bool;
  isLoading : bool;
  error : option string;
  lastAuthCheck : option Z;
  isCheckingAuth : bool;
  hasHydrated : bool;
  authRequired : option bool
}.

(** The store as created. *)
Definition initial : State := mkState false false None None false false None.

(** What a [catch] may receive, as far as the store looks at it:
    [instanceof TypeError], [instanceof Error] and the message. *)
Inductive Thrown :=
| TypeErrorThrown (message : string)
| ErrorThrown (message : string)
| ValueThrown.

(** The body of a response as [register] reads it; [None] when
    [response.json()] fails. *)
Record Body := mkBody { body_error : jsval; body_message : jsval }.

(** How [getAuthApiUrl] and [fetch] went: a response, or what either of
    them threw.  Each action is followed from its call to its return
    with no other action of the store in between. *)
Inductive Fetched :=
| Response (status : Z) (body : option Body)
| Threw (t : Thrown).

(** [response.ok] *)
Definition ok (status : Z) : bool := ((200 <=? status) && (status <=? 299))%Z.

(** [s.includes(sub)] *)
Fixpoint includes (sub s : string) : bool :=
  if String.prefix sub s then true
  else match s with
       | EmptyString => false
       | String _ s' => includes sub s'
       end.

(** [`${n}`] for an integer. *)
Definition show (n : Z) : string := NilZero.string_of_int (Z.to_int n).

Definition unreachable_message : string :=
  "Unable to connect to auth service. Please check if the API is running.".

(** [error instanceof TypeError && error.message.includes('Failed to
    fetch')] *)
Definition failed_to_fetch (t : Thrown) : bool :=
  match t with
  | TypeErrorThrown message => includes "Failed to fetch" message
  | _ => false
  end.

(** [setHasHydrated] *)
Definition setHasHydrated (state : bool) (st : State) : State :=
  mkState (isAuthenticated st) (isLoading st) (error st) (lastAuthCheck st)
    (isCheckingAuth st) state (authRequired st).

(** [checkAuthRequired]: the state it leaves, and [true] or what it
    throws. *)
Definition checkAuthRequired (fetched : Fetched) (st : State)
  : State * (bool + Thrown) :=
  let required (e : option string) :=
    mkState (isAuthenticated st) (isLoading st) e (lastAuthCheck st)
      (isCheckingAuth st) (hasHydrated st) (Some true) in
  let caught (t : Thrown) :=
    if failed_to_fetch t
    then (required (Some unreachable_message), inr t)
    else (required (error st), inr t) in
  match fetched with
  | Response status _ =>
      if ok status then (required (error st), inl true)
      else caught (ErrorThrown ("Auth service unavailable: " ++ show status))
  | Threw t => caught t
  end.

(** [login]; [now] is what [Date.now()] reads when the response is in. *)
Definition login (email password : string) (now : Z) (fetched : Fetched)
  (st : State) : State * bool :=
  (* set({ isLoading: true, error: null }) *)
  let st1 := mkState (isAuthenticated st) true None (lastAuthCheck st)
               (isCheckingAuth st) (hasHydrated st) (authRequired st) in
  let failed (errorMessage : string) :=
    (mkState false false (Some errorMessage) (lastAuthCheck st1)
       (isCheckingAuth st1) (hasHydrated st1) (authRequired st1), false) in
  match fetched with
  | Response status _ =>
      if ok status then
        (mkState true false None (Some now) (isCheckingAuth st1)
           (hasHydrated st1) (authRequired st1), true)
      else
        failed (if (status =? 401)%Z
                then "Invalid credentials. Please try again."
                else if (status =? 403)%Z
                then "Access denied. Please check your credentials."
                else if (500 <=? status)%Z
                then "Server error. Please try again later."
                else "Authentication failed (" ++ show status ++ ")")
  | Threw t =>
      failed (if failed_to_fetch t then unreachable_message
              else match t with
                   | TypeErrorThrown message | ErrorThrown message =>
                       "Network error: " ++ message
                   | ValueThrown =>
                       "An unexpected error occurred during authentication"
                   end)
  end.

(** [payload?.error || payload?.message] *)
Definition backendMessage (payload : option Body) : jsval :=
  match payload with
  | None => None
  | Some b => if truthy (body_error b) then body_error b else body_message b
  end.

(** [register] *)
Definition register (name email password : string) (fetched : Fetched)
  (st : State) : State * bool :=
  (* set({ isLoading: true, error: null }) *)
  let st1 := mkState (isAuthenticated st) true None (lastAuthCheck st)
               (isCheckingAuth st) (hasHydrated st) (authRequired st) in
  let finish (e : option string) :=
    mkState (isAuthenticated st1) false e (lastAuthCheck st1)
      (isCheckingAuth st1) (hasHydrated st1) (authRequired st1) in
  match fetched with
  | Response status body =>
      if ok status then (finish None, true)
      else
        let fallback :=
          if (status =? 409)%Z
          then "Email already registered. Please sign in."
          else if (status =? 400)%Z
          then "Please check the form fields and try again."
          else if (500 <=? status)%Z
          then "Server error. Please try again later."
          else "Registration failed (" ++ show status ++ ")" in
        (finish (Some (or_default (backendMessage body) fallback)), false)
  | Threw t =>
      (finish (Some (if failed_to_fetch t then unreachable_message
                     else match t with
                          | TypeErrorThrown message | ErrorThrown message =>
                              "Network error: " ++ message
                          | ValueThrown => "Registration failed"
                          end)), false)
  end.

(** [logout] *)
Definition logout (st : State) : State :=
  mkState false (isLoading st) None (lastAuthCheck st) (isCheckingAuth st)
    (hasHydrated st) (authRequired st).

(** [isAuthenticated && lastAuthCheck && (now - lastAuthCheck) < 30000]:
    a [lastAuthCheck] of [null] or [0] is falsy. *)
Definition checked_recently (now : Z) (st : State) : bool :=
  isAuthenticated st &&
  match lastAuthCheck st with
  | Some last => negb (last =? 0)%Z && (now - last <? 30000)%Z
  | None => false
  end.

(** [checkAuth]: the state it leaves, what it returns, and whether it
    went past its two guards to the request; [now] is read before the
    request is sent. *)
Definition checkAuth (now : Z) (fetched : Fetched) (st : State)
  : State * bool * bool :=
  if isCheckingAuth st then (st, isAuthenticated st, false)
  else if checked_recently now st then (st, true, false)
  else
    let answered (authenticated : bool) (last : option Z) :=
      (mkState authenticated (isLoading st) (error st) last false
         (hasHydrated st) (authRequired st), authenticated, true) in
    match fetched with
    | Response status _ =>
        if ok status then answered true (Some now) else answered false None
    | Threw _ => answered false None
    end.

(** [partialize]: what is written to local storage. *)
Definition partialize (st : State) : bool := isAuthenticated st.

(** The response that makes an action succeed. *)
Definition accepted (fetched : Fetched) : Prop :=
  exists status body, fetched = Response status body /\
                      (200 <= status <= 299)%Z.

End AuthStore.

(* ------------------------------------------------------------------ *)
(** ** The frontend's request middleware ([middleware]) *)

Module Edge.

Local Open Scope string_scope.

(** What the middleware answers. *)
Inductive Outcome :=
| Redirect (path base : string)   (* redirect(new URL(path, base)) *)
| Rewrite (target : string)       (* rewrite(target) *)
| Next                            (* next() *)
| Throws.                         (* new URL(...) rejected the target *)

(** [s.replace(/\/$/, '')]: one slash at the very end is removed. *)
Fixpoint strip_slash (s : string) : string :=
  match s with
  | EmptyString => EmptyString
  | String c EmptyString => if Ascii.eqb c "/" then EmptyString else s
  | String c s' => String c (strip_slash s')
  end.

(** The string handed to [new URL]. *)
Definition targetUrlStr (INTERNAL_API_URL : jsval) (pathname search : string)
  : string :=
  let internalApiUrl := or_default INTERNAL_API_URL "http://localhost:15055" in
  strip_slash internalApiUrl ++ pathname ++ search.

Section Middleware.

(** [new URL(s)] for an absolute URL: its serialisation, or [None] when
    the constructor throws. *)
Variable URL : string -> option string.

(** middleware.ts, [middleware]; [url], [pathname] and [search] are
    [request.url] and the two fields of [request.nextUrl] it reads. *)
Definition middleware (url pathname search : string)
  (INTERNAL_API_URL : jsval) : Outcome :=
  if pathname =? "/" then Redirect "/notebooks" url
  else if String.prefix "/api/" pathname then
    match URL (targetUrlStr INTERNAL_API_URL pathname search) with
    | Some targetUrl => Rewrite targetUrl
    | None => Throws
    end
  else Next.

End Middleware.

(** Whether a string ends with a slash. *)
Fixpoint ends_with_slash (s : string) : bool :=
  match s with
  | EmptyString => false
  | String c EmptyString => Ascii.eqb c "/"
  | String _ s' => ends_with_slash s'
  end.

End Edge.

(* ------------------------------------------------------------------ *)
(** ** File names for exports ([sanitizeFilename]) *)

Module ExportUtils.

Local Open Scope N_scope.

(** A JavaScript string: its UTF-16 code units. *)
Definition Str := list N.

Definition is_lower (c : N) : bool := (97 <=? c) && (c <=? 122).
Definition is_upper (c : N) : bool := (65 <=? c) && (c <=? 90).
Definition is_digit (c : N) : bool := (48 <=? c) && (c <=? 57).

(** The class [\s]: white space and line terminators. *)
Definition is_space (c : N) : bool :=
  ((9 <=? c) && (c <=? 13)) || (c =? 32) || (c =? 160) || (c =? 5760)
  || ((8192 <=? c) && (c <=? 8202)) || (c =? 8232) || (c =? 8233)
  || (c =? 8239) || (c =? 8287) || (c =? 12288) || (c =? 65279).

(** What [/[^a-z0-9\s-_]/gi] does not match: letters of either case (the
    [i] flag folds ASCII letters only, there being no [u] flag), digits,
    white space, and the hyphen and the underscore ([\s-_] is no range). *)
Definition kept (c : N) : bool :=
  is_lower c || is_upper c || is_digit c || is_space c
  || (c =? 45) || (c =? 95).

(** [.replace(/\s+/g, '-')]: every maximal run of white space becomes
    one hyphen; [in_run] tells that the run has been replaced already. *)
Fixpoint collapse (in_run : bool) (s : Str) : Str :=
  match s with
  | [] => []
  | c :: s' =>
      if is_space c then
        if in_run then collapse true s' else 45 :: collapse true s'
      else c :: collapse false s'
  end.

(** [.toLowerCase()] on code units below 128, which is all that is left
    when it is called (see [collapse_ascii] below). *)
Definition lower_unit (c : N) : N := if is_upper c then c + 32 else c.

(** exportUtils, [sanitizeFilename]. *)
Definition sanitizeFilename (filename : Str) : Str :=
  firstn 255 (map lower_unit (collapse false (filter kept filename))).

(** A code unit of [a-z0-9_-]. *)
Definition safe (c : N) : bool :=
  is_lower c || is_digit c || (c =? 45) || (c =? 95).

End ExportUtils.

(* ------------------------------------------------------------------ *)
(** ** Basic facts *)

Lemma jseq_eq : forall a b, jseq a b = true <-> a = b.
Proof.
  intros [x|] [y|]; simpl; split; intro H; try congruence.
  - apply String.eqb_eq in H. now subst.
  - inversion H. apply String.eqb_refl.
Qed.

Lemma jseq_neq : forall a b, jseq a b = false <-> a <> b.
Proof.
  intros a b. rewrite <- jseq_eq. destruct (jseq a b); split; congruence.
Qed.

Lemma tagged_errors_differ :
  SessionRevoked <> InvalidToken /\ SessionRevoked <> InvalidCredentials /\
  InvalidToken <> InvalidCredentials /\
  ~ tagged TypeError_null_id /\ ~ tagged Conflict.
Proof.
  unfold tagged. repeat split; try discriminate;
    intros [H | [H | H]]; discriminate H.
Qed.

Section Properties.

Context {lib : TokenLib}.
Variable env : Env.

(** The two queries do not write. *)
Lemma findSessionByJti_reads : forall jti w,
  findSessionByJti jti w = (Ok (find (has_jti jti) (sessions w)), w).
Proof. reflexivity. Qed.

Lemma findUserById_reads : forall id w,
  findUserById id w =
  (Ok (find (fun u => jseq (Some (User.id u)) id) (users w)), w).
Proof. reflexivity. Qed.

(** [refreshSession] once the token verified and the lookup is known. *)
Lemma refreshSession_absent : forall refreshToken w payload,
  verifyRefreshToken (now w) refreshToken = Ok payload ->
  findSessionByJti (RefreshPayload.jti payload) w = (Ok None, w) ->
  refreshSession refreshToken w = (Throw SessionRevoked, w).
Proof.
  intros tok w payload Hv Hf. unfold refreshSession, bind, verifyRefresh.
  rewrite Hv, Hf. reflexivity.
Qed.

Lemma refreshSession_revoked : forall refreshToken w payload session ts,
  verifyRefreshToken (now w) refreshToken = Ok payload ->
  findSessionByJti (RefreshPayload.jti payload) w = (Ok (Some session), w) ->
  Session.revoked_at session = Some ts ->
  refreshSession refreshToken w = (Throw SessionRevoked, w).
Proof.
  intros tok w payload session ts Hv Hf Hr.
  unfold refreshSession, bind, verifyRefresh.
  rewrite Hv, Hf, Hr. reflexivity.
Qed.

Lemma refreshSession_mismatch : forall refreshToken w payload session,
  verifyRefreshToken (now w) refreshToken = Ok payload ->
  findSessionByJti (RefreshPayload.jti payload) w = (Ok (Some session), w) ->
  Session.revoked_at session = None ->
  Session.refresh_hash session <> Some (hashToken refreshToken) ->
  refreshSession refreshToken w = (Throw InvalidToken, w).
Proof.
  intros tok w payload session Hv Hf Hr Hh.
  unfold refreshSession, bind, verifyRefresh.
  rewrite Hv, Hf, Hr. apply jseq_neq in Hh. rewrite Hh. reflexivity.
Qed.

(** Past the checks the call ends in one of three ways, none of them a
    tagged error. *)
Lemma refreshSession_checked : forall refreshToken w payload session,
  verifyRefreshToken (now w) refreshToken = Ok payload ->
  findSessionByJti (RefreshPayload.jti payload) w = (Ok (Some session), w) ->
  Session.revoked_at session = None ->
  Session.refresh_hash session = Some (hashToken refreshToken) ->
  let w1 := with_cursor (cursor w + 16) w in
  let newJwtId := toHex (map (entropy w) (seq (cursor w) 16)) in
  match find (fun u => jseq (Some (User.id u)) (RefreshPayload.sub payload))
             (users w) with
  | None => refreshSession refreshToken w = (Throw TypeError_null_id, w1)
  | Some user =>
      let access := signAccessToken (now w)
                      (AccessPayload.mk (Some (User.id user))
                                        (Some (User.email user))) in
      let refresh := signRefreshToken (now w)
                       (RefreshPayload.mk (Some (User.id user))
                                          (Some newJwtId)) in
      let w2 := snd (revokeSession (Session.id session) w1) in
      refreshSession refreshToken w =
      match createSession
              (NewSession.mk (Some (User.id user)) (Some newJwtId)
                 (Session.ip session) (Session.user_agent session)
                 (Some (hashToken refresh))) w2 with
      | (Ok _, w3) => (Ok (AuthResult.mk user access refresh), w3)
      | (Throw e, w3) => (Throw e, w3)
      end
  end.
Proof.
  intros tok w payload session Hv Hf Hr Hh w1 newJwtId.
  unfold refreshSession, bind, verifyRefresh.
  rewrite Hv, Hf, Hr, Hh.
  replace (jseq (Some (hashToken tok)) (Some (hashToken tok))) with true
    by (symmetry; now apply jseq_eq).
  cbn [negb]. rewrite findUserById_reads.
  unfold cryptoRandomId, bind, randomBytes, ret.
  destruct (find _ (users w)) as [user|]; reflexivity.
Qed.

Lemma createSession_cases : forall f w,
  (createSession f w = (Throw Conflict, w) /\
   existsb (has_jti (NewSession.jwt_id f)) (sessions w) = true) \/
  (exists row,
     createSession f w = (Ok row, with_sessions (sessions w ++ [row]) w) /\
     existsb (has_jti (NewSession.jwt_id f)) (sessions w) = false /\
     Session.jwt_id row = NewSession.jwt_id f /\
     Session.refresh_hash row = NewSession.refresh_hash f /\
     Session.ip row = NewSession.ip f /\
     Session.user_agent row = NewSession.user_agent f /\
     Session.user_id row = NewSession.user_id f /\
     Session.revoked_at row = None).
Proof.
  intros f w. unfold createSession.
  destruct (existsb _ _) eqn:E; [left | right]; auto.
  eexists. repeat split; reflexivity.
Qed.

(** C2: for a refresh token that verifies, [refreshSession] fails with
    SessionRevoked exactly when the session found by the token's jti is
    absent or revoked, and with InvalidToken exactly when that session is
    active but stores another hash than that of the presented token; in
    both failures the world, and so the session table, is left as it
    was. *)
Theorem refresh_failure_kinds :
  forall refreshToken w payload session,
    verifyRefreshToken (now w) refreshToken = Ok payload ->
    findSessionByJti (RefreshPayload.jti payload) w = (Ok session, w) ->
    (fst (refreshSession refreshToken w) = Throw SessionRevoked <->
       (session = None \/
        exists s, session = Some s /\ Session.revoked_at s <> None)) /\
    (fst (refreshSession refreshToken w) = Throw InvalidToken <->
       (exists s, session = Some s /\ Session.revoked_at s = None /\
                  Session.refresh_hash s <> Some (hashToken refreshToken))) /\
    (fst (refreshSession refreshToken w) = Throw SessionRevoked \/
     fst (refreshSession refreshToken w) = Throw InvalidToken ->
     snd (refreshSession refreshToken w) = w).
Proof.
  intros tok w payload session Hv Hf.
  destruct session as [s|].
  2:{ rewrite (refreshSession_absent _ _ _ Hv Hf). simpl.
      repeat split; auto; try discriminate.
      intros (s & Hs & _). discriminate Hs. }
  destruct (Session.revoked_at s) as [ts|] eqn:Hr.
  { rewrite (refreshSession_revoked _ _ _ _ _ Hv Hf Hr). simpl.
    repeat split; auto; try discriminate.
    - intros _. right. exists s. split; [reflexivity | congruence].
    - intros (s' & Hs & Hn & _). inversion Hs; subst. congruence. }
  destruct (jseq (Session.refresh_hash s) (Some (hashToken tok))) eqn:Hh.
  2:{ apply jseq_neq in Hh.
      rewrite (refreshSession_mismatch _ _ _ _ Hv Hf Hr Hh). simpl.
      repeat split; auto; try discriminate.
      - intros [H | (s' & Hs & Hn)]; [discriminate H |].
        inversion Hs; subst. congruence.
      - intros _. exists s. auto. }
  apply jseq_eq in Hh.
  pose proof (refreshSession_checked _ _ _ _ Hv Hf Hr Hh) as Hc.
  cbv zeta in Hc.
  assert (Hres : (exists e w', refreshSession tok w = (Throw e, w') /\
                               (e = TypeError_null_id \/ e = Conflict)) \/
                 (exists r w', refreshSession tok w = (Ok r, w'))).
  { destruct (find _ (users w)) as [user|].
    - match type of Hc with
      | _ = match createSession ?f ?w2 with _ => _ end =>
          destruct (createSession_cases f w2) as [[E _] | (row & E & _)];
            rewrite E in Hc
      end.
      + left. eauto.
      + right. eauto.
    - left. eauto. }
  assert (Hnot : fst (refreshSession tok w) <> Throw SessionRevoked /\
                 fst (refreshSession tok w) <> Throw InvalidToken).
  { destruct Hres as [(e & w' & E & [He | He]) | (r & w' & E)];
      rewrite E; simpl; subst; split; discriminate. }
  destruct Hnot as [Hn1 Hn2].
  repeat split.
  - intro H. contradiction.
  - intros [H | (s' & Hs & Hn)]; [discriminate H |].
    inversion Hs; subst. congruence.
  - intro H. contradiction.
  - intros (s' & Hs & _ & Hn). inversion Hs; subst. contradiction.
  - intros [H | H]; contradiction.
Qed.

(** C3: a login fails with InvalidCredentials exactly when the email is
    unknown, the user has no (or an empty) stored password hash, or the
    password does not match; the outcome is then the same error in all
    three cases (status 401, message "Invalid credentials") and the world,
    and so the session table, is left as it was. *)
Theorem login_failures_indistinguishable :
  forall email password meta w user,
    findUserByEmail email w = (Ok user, w) ->
    let unknown := user = None in
    let no_hash :=
      exists u, user = Some u /\ truthy (User.password_hash u) = false in
    let mismatch :=
      exists u h, user = Some u /\ User.password_hash u = Some h /\
                  bcrypt_compare password h = false in
    (unknown \/ no_hash \/ mismatch <->
     fst (loginWithPassword email password meta w) = Throw InvalidCredentials) /\
    (unknown \/ no_hash \/ mismatch ->
     loginWithPassword email password meta w = (Throw InvalidCredentials, w) /\
     sessions (snd (loginWithPassword email password meta w)) = sessions w) /\
    err_status InvalidCredentials = Some 401%Z /\
    err_message InvalidCredentials = "Invalid credentials".
Proof.
  intros email password meta w user Hu unknown no_hash mismatch.
  assert (Hfwd : unknown \/ no_hash \/ mismatch ->
                 loginWithPassword email password meta w =
                 (Throw InvalidCredentials, w)).
  { unfold loginWithPassword, bind. rewrite Hu.
    intros [H | [(u & H & Ht) | (u & h & H & Hh & Hc)]].
    - unfold unknown in H. subst. reflexivity.
    - subst. destruct (User.password_hash u) as [h|]; [|reflexivity].
      simpl in Ht. apply negb_false_iff in Ht. rewrite Ht. reflexivity.
    - subst. rewrite Hh. destruct (h =? ""); [reflexivity |].
      rewrite Hc. reflexivity. }
  split; [split; [intro H; now rewrite (Hfwd H) |] | split; [| split; reflexivity]].
  - (* only these three cases give the error *)
    unfold loginWithPassword, bind. rewrite Hu.
    destruct user as [u|]; [| intros _; left; reflexivity].
    destruct (User.password_hash u) as [h|] eqn:Hh.
    2:{ intros _. right. left. exists u. rewrite Hh. auto. }
    destruct (h =? "") eqn:He.
    { intros _. right. left. exists u. rewrite Hh. simpl. rewrite He. auto. }
    destruct (bcrypt_compare password h) eqn:Hc.
    2:{ intros _. right. right. exists u, h. auto. }
    cbn [negb]. unfold cryptoRandomId, bind, randomBytes, ret, signAccess, signRefresh.
    match goal with
    | |- context [createSession ?f ?w2] =>
        destruct (createSession_cases f w2) as [[E _] | (row & E & _)];
          rewrite E
    end; simpl; discriminate.
  - intro H. rewrite (Hfwd H). auto.
Qed.

(** C10: when the refresh token verifies, its session is active and the
    hash matches, but there is no user record for the token's subject,
    [refreshSession] throws the runtime's TypeError for reading [id] of
    [null]: not one of the tagged errors, without status 401, after the
    identifier was drawn but before [revokeSession] or [createSession]
    ran, so that users and sessions are as they were. *)
Theorem refresh_missing_user_untagged :
  forall refreshToken w payload session,
    verifyRefreshToken (now w) refreshToken = Ok payload ->
    findSessionByJti (RefreshPayload.jti payload) w = (Ok (Some session), w) ->
    Session.revoked_at session = None ->
    Session.refresh_hash session = Some (hashToken refreshToken) ->
    findUserById (RefreshPayload.sub payload) w = (Ok None, w) ->
    refreshSession refreshToken w =
      (Throw TypeError_null_id, with_cursor (cursor w + 16) w) /\
    sessions (snd (refreshSession refreshToken w)) = sessions w /\
    users (snd (refreshSession refreshToken w)) = users w /\
    ~ tagged TypeError_null_id /\
    err_status TypeError_null_id <> Some 401%Z.
Proof.
  intros tok w payload session Hv Hf Hr Hh Hu.
  pose proof (refreshSession_checked _ _ _ _ Hv Hf Hr Hh) as Hc.
  cbv zeta in Hc. rewrite findUserById_reads in Hu.
  assert (Hfind : find (fun u => jseq (Some (User.id u))
                                      (RefreshPayload.sub payload))
                       (users w) = None) by congruence.
  rewrite Hfind in Hc. rewrite Hc.
  repeat split; try reflexivity.
  - apply tagged_errors_differ.
  - discriminate.
Qed.

(** C6: the decision of the [auth] middleware depends on the request's
    access token, the clock and the user table only, never on the session
    table: in two worlds with the same users and the same time, whatever
    their session rows, a request gets the same outcome; so revoking a
    session changes nothing for a request that carries an access token
    issued before. *)
Theorem auth_ignores_sessions :
  forall req w1 w2,
    users w1 = users w2 ->
    now w1 = now w2 ->
    auth req w1 = auth req w2 /\
    (forall sid, auth req (snd (revokeSession sid w1)) = auth req w2) /\
    (forall rows, auth req (with_sessions rows w1) = auth req w2).
Proof.
  intros req w1 w2 Hu Hn.
  assert (H : forall w, users w = users w2 -> now w = now w2 ->
                        auth req w = auth req w2).
  { intros w Hu' Hn'. unfold auth, bind, verifyAccess.
    destruct (or_default (Request.access_token req) "" =? "");
      [reflexivity |].
    rewrite Hn'. destruct (verifyAccessToken (now w2) _); [| reflexivity].
    rewrite !findUserById_reads, Hu'. reflexivity. }
  split; [| split]; intros; apply H; assumption.
Qed.

(* ------------------------------------------------------------------ *)
(** ** Successful runs, read backwards *)

Lemma cryptoRandomId_run : forall w,
  cryptoRandomId w = (Ok (drawn w), with_cursor (cursor w + 16) w).
Proof. reflexivity. Qed.

Lemma refreshSession_ok_inv : forall refreshToken w r w',
  refreshSession refreshToken w = (Ok r, w') ->
  exists payload session user row,
    verifyRefreshToken (now w) refreshToken = Ok payload /\
    findSessionByJti (RefreshPayload.jti payload) w = (Ok (Some session), w) /\
    Session.revoked_at session = None /\
    Session.refresh_hash session = Some (hashToken refreshToken) /\
    findUserById (RefreshPayload.sub payload) w = (Ok (Some user), w) /\
    r = AuthResult.mk user
          (signAccessToken (now w)
             (AccessPayload.mk (Some (User.id user)) (Some (User.email user))))
          (signRefreshToken (now w)
             (RefreshPayload.mk (Some (User.id user)) (Some (drawn w)))) /\
    createSession
      (NewSession.mk (Some (User.id user)) (Some (drawn w))
         (Session.ip session) (Session.user_agent session)
         (Some (hashToken (AuthResult.refresh r))))
      (snd (revokeSession (Session.id session)
              (with_cursor (cursor w + 16) w))) = (Ok row, w').
Proof.
  intros tok w r w' H.
  destruct (verifyRefreshToken (now w) tok) as [payload|e] eqn:Hv.
  2:{ unfold refreshSession, bind, verifyRefresh in H. rewrite Hv in H.
      discriminate H. }
  pose proof (findSessionByJti_reads (RefreshPayload.jti payload) w) as Hf.
  destruct (find _ (sessions w)) as [session|].
  2:{ rewrite (refreshSession_absent _ _ _ Hv Hf) in H. discriminate H. }
  destruct (Session.revoked_at session) as [ts|] eqn:Hr.
  { rewrite (refreshSession_revoked _ _ _ _ _ Hv Hf Hr) in H. discriminate H. }
  destruct (jseq (Session.refresh_hash session) (Some (hashToken tok))) eqn:Hh.
  2:{ apply jseq_neq in Hh.
      rewrite (refreshSession_mismatch _ _ _ _ Hv Hf Hr Hh) in H.
      discriminate H. }
  apply jseq_eq in Hh.
  pose proof (refreshSession_checked _ _ _ _ Hv Hf Hr Hh) as Hc.
  cbv zeta in Hc.
  pose proof (findUserById_reads (RefreshPayload.sub payload) w) as Hu.
  destruct (find _ (users w)) as [user|]; rewrite Hc in H; [| discriminate H].
  match type of H with
  | match createSession ?f ?w2 with _ => _ end = _ =>
      destruct (createSession f w2) as [[row|e] w3] eqn:Hcr
  end; [| discriminate H].
  inversion H; subst. exists payload, session, user, row.
  repeat split; auto.
Qed.

Lemma loginWithPassword_ok_inv : forall email password meta w r w',
  loginWithPassword email password meta w = (Ok r, w') ->
  exists user password_hash row,
    findUserByEmail email w = (Ok (Some user), w) /\
    User.password_hash user = Some password_hash /\
    password_hash <> "" /\
    bcrypt_compare password password_hash = true /\
    r = AuthResult.mk user
          (signAccessToken (now w)
             (AccessPayload.mk (Some (User.id user)) (Some (User.email user))))
          (signRefreshToken (now w)
             (RefreshPayload.mk (Some (User.id user)) (Some (drawn w)))) /\
    createSession
      (NewSession.mk (Some (User.id user)) (Some (drawn w))
         (Meta.ip meta) (Meta.user_agent meta)
         (Some (hashToken (AuthResult.refresh r))))
      (with_cursor (cursor w + 16) w) = (Ok row, w').
Proof.
  intros email password meta w r w' H.
  unfold loginWithPassword, bind in H.
  assert (Hu : findUserByEmail email w =
               (Ok (find (fun u => lower (User.email u) =? lower email)
                         (users w)), w)) by reflexivity.
  rewrite Hu in H.
  destruct (find _ (users w)) as [user|]; [| discriminate H].
  destruct (User.password_hash user) as [h|] eqn:Hh; [| discriminate H].
  destruct (h =? "") eqn:He; [discriminate H |].
  destruct (bcrypt_compare password h) eqn:Hc; [| discriminate H].
  cbn [negb] in H. rewrite cryptoRandomId_run in H.
  unfold signAccess, signRefresh, ret in H.
  cbn [now with_cursor] in H.
  match type of H with
  | match createSession ?f ?w2 with _ => _ end = _ =>
      destruct (createSession f w2) as [[row|e] w3] eqn:Hcr
  end; [| discriminate H].
  inversion H; subst. exists user, h, row.
  apply String.eqb_neq in He. repeat split; auto.
Qed.

(* ------------------------------------------------------------------ *)
(** ** The session table only grows, and rows only get revoked *)

Lemma row_step_refl : forall s, row_step s s.
Proof. intro s. now left. Qed.

Lemma row_step_trans : forall a b c,
  row_step a b -> row_step b c -> row_step a c.
Proof.
  intros a b c [-> | (Ha & ts & ->)] [-> | (Hb & ts' & ->)].
  - now left.
  - right. eauto.
  - right. eauto.
  - discriminate Hb.
Qed.

Lemma row_step_complete : forall s s',
  row_step s s' -> complete s -> complete s'.
Proof.
  intros s s' [-> | (_ & ts & ->)] H; [assumption |].
  destruct H. split; assumption.
Qed.

Lemma row_step_jti : forall s s' jti,
  row_step s s' -> has_jti jti s' = has_jti jti s.
Proof. intros s s' jti [-> | (_ & ts & ->)]; reflexivity. Qed.

Lemma row_step_revoked : forall s s',
  row_step s s' -> Session.revoked_at s <> None ->
  Session.revoked_at s' = Session.revoked_at s.
Proof.
  intros s s' [-> | (H & _)] Hn; [reflexivity | contradiction].
Qed.

Lemma row_step_revoke_row : forall sid ts s, row_step s (revoke_row sid ts s).
Proof.
  intros sid ts s. unfold revoke_row.
  destruct (Nat.eqb _ _); [| now left].
  destruct (Session.revoked_at s) eqn:E; [now left |].
  right. eauto.
Qed.

Lemma Forall2_row_step_refl : forall rows, Forall2 row_step rows rows.
Proof. induction rows; constructor; auto using row_step_refl. Qed.

Lemma Forall2_row_step_trans : forall l1 l2 l3,
  Forall2 row_step l1 l2 -> Forall2 row_step l2 l3 -> Forall2 row_step l1 l3.
Proof.
  intros l1 l2 l3 H. revert l3.
  induction H as [| a b l1 l2 Hab _ IH]; intros l3 H3; inversion H3; subst;
    constructor; eauto using row_step_trans.
Qed.

Lemma Forall2_row_step_complete : forall l1 l2,
  Forall2 row_step l1 l2 -> Forall complete l1 -> Forall complete l2.
Proof.
  induction 1 as [| a b l1 l2 Hab _ IH]; intro Hc; [constructor |].
  inversion Hc; subst. constructor; eauto using row_step_complete.
Qed.

Lemma evolves_refl : forall rows, evolves rows rows.
Proof.
  intro rows. exists rows, []. rewrite app_nil_r.
  auto using Forall2_row_step_refl.
Qed.

Lemma evolves_trans : forall r1 r2 r3,
  evolves r1 r2 -> evolves r2 r3 -> evolves r1 r3.
Proof.
  intros r1 r2 r3 (old1 & new1 & -> & H1 & C1) (old2 & new2 & -> & H2 & C2).
  apply Forall2_app_inv_l in H2 as (oa & ob & Ha & Hb & ->).
  exists oa, (ob ++ new2). rewrite app_assoc. repeat split.
  - eauto using Forall2_row_step_trans.
  - apply Forall_app. split; [| assumption].
    eauto using Forall2_row_step_complete.
Qed.

Lemma evolves_written : forall w w',
  evolves (sessions w) (sessions w') -> Forall complete (written w w').
Proof.
  intros w w' (old & new & E & H & C). unfold written. rewrite E.
  rewrite (Forall2_length H), skipn_app, skipn_all, Nat.sub_diag.
  assumption.
Qed.

Lemma evolves_prefix : forall rows rows',
  evolves rows rows' ->
  Forall2 row_step rows (firstn (List.length rows) rows').
Proof.
  intros rows rows' (old & new & -> & H & _).
  rewrite (Forall2_length H), firstn_app, firstn_all, Nat.sub_diag.
  simpl. rewrite app_nil_r. assumption.
Qed.

(** The row a lookup by jti finds stays the one found, and stays revoked
    once it is. *)
Lemma Forall2_row_step_find : forall jti l1 l2 extra s,
  Forall2 row_step l1 l2 ->
  find (has_jti jti) l1 = Some s ->
  exists s', find (has_jti jti) (l2 ++ extra) = Some s' /\ row_step s s'.
Proof.
  intros jti l1 l2 extra s H. induction H as [| a b l1 l2 Hab _ IH];
    simpl; intro Hf; [discriminate Hf |].
  rewrite (row_step_jti _ _ jti Hab).
  destruct (has_jti jti a); [| auto].
  inversion Hf; subst. eauto.
Qed.

Lemma evolves_find_revoked : forall jti rows rows' s,
  evolves rows rows' ->
  find (has_jti jti) rows = Some s ->
  Session.revoked_at s <> None ->
  exists s', find (has_jti jti) rows' = Some s' /\
             Session.revoked_at s' = Session.revoked_at s.
Proof.
  intros jti rows rows' s (old & new & -> & H & _) Hf Hr.
  destruct (Forall2_row_step_find jti _ _ new s H Hf) as (s' & Hf' & Hs).
  exists s'. split; [assumption |]. now apply row_step_revoked.
Qed.

Lemma steady_ret : forall A (a : A), steady (ret a).
Proof. intros A a w. apply evolves_refl. Qed.

Lemma steady_throw : forall A e, steady (@throw A e).
Proof. intros A e w. apply evolves_refl. Qed.

Lemma steady_bind : forall A B (m : M A) (k : A -> M B),
  steady m -> (forall a, steady (k a)) -> steady (bind m k).
Proof.
  intros A B m k Hm Hk w. unfold bind. specialize (Hm w).
  destruct (m w) as [[a|e] w1]; simpl in *; [| assumption].
  eapply evolves_trans; [exact Hm | apply Hk].
Qed.

Lemma steady_reads : forall A (f : World -> Result A),
  steady (fun w => (f w, w)).
Proof. intros A f w. apply evolves_refl. Qed.

Lemma steady_cryptoRandomId : steady cryptoRandomId.
Proof. intro w. apply evolves_refl. Qed.

Lemma steady_revokeSession : forall sid, steady (revokeSession sid).
Proof.
  intros sid w. simpl. exists (map (revoke_row sid (now w)) (sessions w)), [].
  rewrite app_nil_r. repeat split; [| constructor].
  induction (sessions w); simpl; constructor;
    auto using row_step_revoke_row.
Qed.

Lemma steady_createSession : forall f,
  NewSession.jwt_id f <> None -> NewSession.refresh_hash f <> None ->
  steady (createSession f).
Proof.
  intros f Hj Hh w.
  destruct (createSession_cases f w) as [[E _] | (row & E & _ & Ej & Er & _)];
    rewrite E; simpl; [apply evolves_refl |].
  exists (sessions w), [row]. repeat split.
  - apply Forall2_row_step_refl.
  - constructor; [| constructor]. split; congruence.
Qed.

Ltac steady_step :=
  first
    [ apply steady_ret
    | apply steady_throw
    | apply steady_cryptoRandomId
    | apply steady_revokeSession
    | apply steady_createSession; discriminate
    | apply (steady_reads _ (fun w => Ok _))
    | apply (steady_reads _ (fun w => verifyRefreshToken (now w) _))
    | apply (steady_reads _ (fun w => verifyAccessToken (now w) _))
    | apply steady_bind; [| intro]
    | match goal with
      | |- steady (match ?x with _ => _ end) => destruct x
      end ].

Lemma steady_loginWithPassword : forall email password meta,
  steady (loginWithPassword email password meta).
Proof.
  intros. unfold loginWithPassword, findUserByEmail, signAccess, signRefresh.
  repeat steady_step.
Qed.

Lemma steady_refreshSession : forall refreshToken,
  steady (refreshSession refreshToken).
Proof.
  intros. unfold refreshSession, verifyRefresh, findSessionByJti,
    findUserById, signAccess, signRefresh.
  repeat steady_step.
Qed.

Lemma googleCallback_evolves : forall req err user w,
  evolves (sessions w) (sessions (snd (googleCallback env req err user w))).
Proof.
  intros req err user w. unfold googleCallback.
  destruct err as [e|]; [apply evolves_refl |].
  match goal with
  | |- context [match ?m w with _ => _ end] =>
      assert (H : steady m)
        by (unfold signAccess, signRefresh; repeat steady_step);
      specialize (H w); destruct (m w) as [[[access refresh]|e] w']
  end; exact H.
Qed.

Lemma happen_evolves : forall e w,
  evolves (sessions w) (sessions (happen env w e)).
Proof.
  intros [email password meta | tok | req err user | sid | t | us] w; simpl.
  - apply steady_loginWithPassword.
  - apply steady_refreshSession.
  - apply googleCallback_evolves.
  - apply (steady_revokeSession sid w).
  - apply evolves_refl.
  - apply evolves_refl.
Qed.

Lemma history_evolves : forall es w,
  evolves (sessions w) (sessions (history env es w)).
Proof.
  unfold history. induction es as [| e es IH]; intro w; simpl.
  - apply evolves_refl.
  - eapply evolves_trans; [apply happen_evolves | apply IH].
Qed.

(* ------------------------------------------------------------------ *)
(** ** Sessions written, login, rotation, replay *)

(** C8: every session row written to the table, by a password login, by
    a refresh rotation, by the identity-provider callback, and so by any
    history of the service, has a token identifier and a refresh-token
    hash that are not null. *)
Theorem sessions_written_complete :
  forall w,
    (forall email password meta,
        Forall complete
          (written w (snd (loginWithPassword email password meta w)))) /\
    (forall refreshToken,
        Forall complete (written w (snd (refreshSession refreshToken w)))) /\
    (forall req err user,
        Forall complete
          (written w (snd (googleCallback env req err user w)))) /\
    (forall es, Forall complete (written w (history env es w))).
Proof.
  intro w. repeat split; intros; apply evolves_written.
  - apply steady_loginWithPassword.
  - apply steady_refreshSession.
  - apply googleCallback_evolves.
  - apply history_evolves.
Qed.

(** C4: a successful password login draws a token identifier, sixteen
    bytes of the entropy source that the call consumes, which no session
    of the table carries, appends exactly one session row, active, for the
    user found by the email, with that identifier and with the hash of the
    returned refresh token, and returns that user with an access token
    signed for the user's id; when the token library accepts at this
    instant the access tokens it signs for the users of the table, the
    returned access token verifies and decodes to the id of the user who
    logged in. *)
Theorem login_success :
  forall email password meta w r w',
    loginWithPassword email password meta w = (Ok r, w') ->
    (forall u, In u (users w) ->
       let p := AccessPayload.mk (Some (User.id u)) (Some (User.email u)) in
       verifyAccessToken (now w) (signAccessToken (now w) p) = Ok p) ->
    exists row payload,
      findUserByEmail email w = (Ok (Some (AuthResult.user r)), w) /\
      existsb (has_jti (Some (drawn w))) (sessions w) = false /\
      sessions w' = sessions w ++ [row] /\
      Session.jwt_id row = Some (drawn w) /\
      Session.refresh_hash row = Some (hashToken (AuthResult.refresh r)) /\
      Session.user_id row = Some (User.id (AuthResult.user r)) /\
      Session.revoked_at row = None /\
      verifyAccessToken (now w') (AuthResult.access r) = Ok payload /\
      AccessPayload.sub payload = Some (User.id (AuthResult.user r)) /\
      cursor w' = (cursor w + 16)%nat.
Proof.
  intros email password meta w r w' H Hrt.
  apply loginWithPassword_ok_inv in H
    as (user & h & row & Hu & Hh & Hne & Hc & Hr & Hcr).
  match type of Hcr with
  | createSession ?f ?w1 = _ =>
      destruct (createSession_cases f w1)
        as [[E _] | (row' & E & Hfresh & Ej & Erh & _ & _ & Eu & Erev)];
        rewrite E in Hcr; [discriminate Hcr |]
  end.
  inversion Hcr; subst row' w'. clear Hcr E.
  assert (Hin : In user (users w)).
  { unfold findUserByEmail in Hu. inversion Hu as [Hfind].
    apply find_some in Hfind. tauto. }
  specialize (Hrt user Hin). cbv zeta in Hrt.
  exists row. eexists. subst r. cbn in *.
  repeat split; eauto.
Qed.

(** The session table after a successful refresh: the session found is
    revoked where it stood, one row is appended, and a lookup by the old
    identifier still finds the old, now revoked, row. *)
Lemma refreshSession_ok_table : forall refreshToken w r w',
  refreshSession refreshToken w = (Ok r, w') ->
  exists payload old new,
    verifyRefreshToken (now w) refreshToken = Ok payload /\
    find (has_jti (RefreshPayload.jti payload)) (sessions w) = Some old /\
    Session.revoked_at old = None /\
    createSession
      (NewSession.mk (Some (User.id (AuthResult.user r))) (Some (drawn w))
         (Session.ip old) (Session.user_agent old)
         (Some (hashToken (AuthResult.refresh r))))
      (snd (revokeSession (Session.id old) (with_cursor (cursor w + 16) w)))
      = (Ok new, w') /\
    sessions w' = map (revoke_row (Session.id old) (now w)) (sessions w)
                  ++ [new] /\
    find (has_jti (RefreshPayload.jti payload)) (sessions w')
      = Some (Session.revoke_at (now w) old).
Proof.
  intros tok w r w' H.
  apply refreshSession_ok_inv in H
    as (payload & old & user & new & Hv & Hf & Hrev & Hh & Hu & Hr & Hcr).
  assert (Eu : AuthResult.user r = user) by (subst r; reflexivity).
  rewrite <- Eu in Hcr.
  rewrite findSessionByJti_reads in Hf.
  assert (Hfo : find (has_jti (RefreshPayload.jti payload)) (sessions w)
                = Some old) by congruence.
  assert (Hrows : sessions w' = map (revoke_row (Session.id old) (now w))
                                    (sessions w) ++ [new]).
  { match type of Hcr with
    | createSession ?f ?w1 = _ =>
        destruct (createSession_cases f w1) as [[E _] | (row' & E & _)];
          rewrite E in Hcr; [discriminate Hcr |]
    end.
    inversion Hcr; subst row' w'. reflexivity. }
  exists payload, old, new.
  split; [exact Hv |]. split; [exact Hfo |]. split; [exact Hrev |].
  split; [exact Hcr |]. split; [exact Hrows |].
  rewrite Hrows. clear Hrows Hcr Hf.
  induction (sessions w) as [| a rows IH]; simpl in *; [discriminate Hfo |].
  rewrite (row_step_jti _ _ _ (row_step_revoke_row _ _ a)).
  destruct (has_jti _ a); [| auto].
  inversion Hfo; subst a. unfold revoke_row.
  rewrite Nat.eqb_refl, Hrev. reflexivity.
Qed.

Lemma has_jti_revoke_row : forall jti sid ts s,
  has_jti jti (revoke_row sid ts s) = has_jti jti s.
Proof.
  intros. apply row_step_jti, row_step_revoke_row.
Qed.

Lemma existsb_revoke_rows : forall jti sid ts rows,
  existsb (has_jti jti) (map (revoke_row sid ts) rows)
  = existsb (has_jti jti) rows.
Proof.
  intros jti sid ts rows. induction rows as [| a rows IH]; simpl;
    [reflexivity |].
  now rewrite has_jti_revoke_row, IH.
Qed.

(** Revoking the row a lookup finds leaves it where the lookup finds
    it. *)
Lemma find_revoke_rows : forall jti rows old ts,
  find (has_jti jti) rows = Some old ->
  Session.revoked_at old = None ->
  find (has_jti jti) (map (revoke_row (Session.id old) ts) rows)
  = Some (Session.revoke_at ts old).
Proof.
  intros jti rows old ts Hfo Hrev.
  induction rows as [| a rows IH]; simpl in *; [discriminate Hfo |].
  rewrite has_jti_revoke_row.
  destruct (has_jti _ a); [| auto].
  inversion Hfo; subst a. unfold revoke_row.
  rewrite Nat.eqb_refl, Hrev. reflexivity.
Qed.

(** When the identifier drawn is taken, the old session is revoked all
    the same. *)
Lemma refreshSession_conflict : forall refreshToken w payload session user,
  verifyRefreshToken (now w) refreshToken = Ok payload ->
  findSessionByJti (RefreshPayload.jti payload) w = (Ok (Some session), w) ->
  Session.revoked_at session = None ->
  Session.refresh_hash session = Some (hashToken refreshToken) ->
  findUserById (RefreshPayload.sub payload) w = (Ok (Some user), w) ->
  existsb (has_jti (Some (drawn w))) (sessions w) = true ->
  refreshSession refreshToken w =
  (Throw Conflict,
   with_sessions (map (revoke_row (Session.id session) (now w)) (sessions w))
     (with_cursor (cursor w + 16) w)).
Proof.
  intros tok w payload session user Hv Hf Hr Hh Hu Htaken.
  pose proof (refreshSession_checked _ _ _ _ Hv Hf Hr Hh) as Hc.
  cbv zeta in Hc. rewrite findUserById_reads in Hu.
  assert (Hfind : find (fun u => jseq (Some (User.id u))
                                      (RefreshPayload.sub payload))
                       (users w) = Some user) by congruence.
  rewrite Hfind in Hc. rewrite Hc. clear Hc.
  unfold createSession.
  cbn [sessions with_sessions snd revokeSession NewSession.jwt_id now
       with_cursor].
  fold (drawn w). rewrite existsb_revoke_rows, Htaken. reflexivity.
Qed.

(** A successful refresh, [await] by [await]. *)
Lemma refreshSession_ok_steps : forall refreshToken w r w',
  refreshSession refreshToken w = (Ok r, w') ->
  exists payload old,
    verifyRefreshToken (now w) refreshToken = Ok payload /\
    find (has_jti (RefreshPayload.jti payload)) (sessions w) = Some old /\
    resume (AtFindSession refreshToken) w = (AtFindUser payload old, w) /\
    resume (AtFindUser payload old) w
      = (AtRevoke old r (drawn w), with_cursor (cursor w + 16) w) /\
    resume (AtRevoke old r (drawn w)) (with_cursor (cursor w + 16) w)
      = (AtCreate old r (drawn w),
         snd (revokeSession (Session.id old)
                (with_cursor (cursor w + 16) w))) /\
    resume (AtCreate old r (drawn w))
      (snd (revokeSession (Session.id old) (with_cursor (cursor w + 16) w)))
      = (Settled (Ok r), w').
Proof.
  intros tok w r w' H.
  apply refreshSession_ok_inv in H
    as (payload & old & user & new & Hv & Hf & Hrev & Hh & Hu & Hr & Hcr).
  exists payload, old. split; [exact Hv |].
  split; [rewrite findSessionByJti_reads in Hf; congruence |].
  assert (Hj : jseq (Session.refresh_hash old) (Some (hashToken tok)) = true)
    by (apply jseq_eq; exact Hh).
  split.
  { cbn [resume]. unfold lookup_segment, bind, verifyRefresh.
    rewrite Hv, Hf, Hrev, Hj. reflexivity. }
  split.
  { cbn [resume]. unfold issue_segment, bind.
    rewrite Hu, cryptoRandomId_run.
    unfold signAccess, signRefresh, ret. cbn [now with_cursor].
    rewrite Hr. reflexivity. }
  split; [reflexivity |].
  cbn [resume]. unfold create_segment.
  assert (Eu : AuthResult.user r = user) by (rewrite Hr; reflexivity).
  rewrite Eu, Hcr. reflexivity.
Qed.


(** A token the verifier refuses is refused by [refreshSession] with the
    verifier's error, before anything is looked up. *)
Lemma refreshSession_unverified : forall refreshToken w e,
  verifyRefreshToken (now w) refreshToken = Throw e ->
  refreshSession refreshToken w = (Throw e, w).
Proof.
  intros tok w e Hv. unfold refreshSession, bind, verifyRefresh.
  rewrite Hv. reflexivity.
Qed.

(** C1, as the code has it: after a refresh token was used in a
    successful refresh, and after any further history of the service,
    presenting the same token again fails with SessionRevoked and leaves
    the world as it is, provided the token verifies then as it did the
    first time; when the verifier refuses it then (it has expired), the
    call fails with the verifier's error instead, the world again left as
    it is. *)
Theorem replayed_refresh_token_revoked :
  forall refreshToken w r w1 es,
    refreshSession refreshToken w = (Ok r, w1) ->
    let w2 := history env es w1 in
    (verifyRefreshToken (now w2) refreshToken
       = verifyRefreshToken (now w) refreshToken ->
     refreshSession refreshToken w2 = (Throw SessionRevoked, w2)) /\
    (forall e,
        verifyRefreshToken (now w2) refreshToken = Throw e ->
        refreshSession refreshToken w2 = (Throw e, w2)).
Proof.
  intros tok w r w1 es H w2. split; [| apply refreshSession_unverified].
  intro Hsame. subst w2.
  destruct (refreshSession_ok_table _ _ _ _ H)
    as (payload & old & new & Hv & _ & _ & _ & _ & Hfo).
  destruct (evolves_find_revoked _ _ _ _ (history_evolves es w1) Hfo)
    as (s' & Hf' & Hr'); [discriminate |].
  rewrite Hv in Hsame.
  eapply refreshSession_revoked with (session := s') (ts := now w).
  - exact Hsame.
  - rewrite findSessionByJti_reads, Hf'. reflexivity.
  - rewrite Hr'. reflexivity.
Qed.

(** C7, as the code has it: when passport reports an error to the
    callback, [googleCallback] hands that error, as it is, to [next]: no
    cookie is set, no redirect is sent, no session is written and the
    world is left as it was. *)
Theorem googleCallback_error_forwarded :
  forall req e user w,
    googleCallback env req (Some e) user w = (NextCalled e, w) /\
    written w (snd (googleCallback env req (Some e) user w)) = [] /\
    (forall cookies location,
        fst (googleCallback env req (Some e) user w)
          <> Redirected cookies location).
Proof.
  intros req e user w. split; [reflexivity |]. split.
  - unfold written. cbn [googleCallback snd]. apply skipn_all.
  - intros cookies location. cbn [googleCallback fst]. discriminate.
Qed.

(* ------------------------------------------------------------------ *)
(** ** Refreshes in flight together *)

(** Resumed four times, a task has run [refreshSession]. *)
Lemma resume_refreshSession : forall refreshToken w,
  let (t1, w1) := resume (AtFindSession refreshToken) w in
  let (t2, w2) := resume t1 w1 in
  let (t3, w3) := resume t2 w2 in
  resume t3 w3 =
  (Settled (fst (refreshSession refreshToken w)),
   snd (refreshSession refreshToken w)).
Proof.
  intros tok w.
  unfold resume at 1. unfold lookup_segment, refreshSession, bind, verifyRefresh.
  destruct (verifyRefreshToken (now w) tok) as [payload|e]; [| reflexivity].
  rewrite findSessionByJti_reads.
  destruct (find _ (sessions w)) as [session|]; [| reflexivity].
  destruct (Session.revoked_at session); [reflexivity |].
  destruct (jseq _ _); [| reflexivity].
  cbn [negb ret]. unfold resume at 1. unfold issue_segment, bind.
  rewrite findUserById_reads, cryptoRandomId_run.
  destruct (find _ (users w)) as [user|]; [| reflexivity].
  unfold signAccess, signRefresh, ret. cbn [now with_cursor].
  unfold resume at 1.
  unfold resume, create_segment. cbn -[createSession].
  match goal with
  | |- context [createSession ?f ?w2] =>
      destruct (createSession f w2) as [[row|e] w3]
  end; reflexivity.
Qed.

Lemma find_revoked_after_revoke : forall jti rows s t0 extra,
  find (has_jti jti) rows = Some s ->
  exists s',
    find (has_jti jti) (map (revoke_row (Session.id s) t0) rows ++ extra)
      = Some s' /\ Session.revoked_at s' <> None.
Proof.
  intros jti rows s t0 extra. induction rows as [| a rows IH]; simpl;
    intro Hf; [discriminate Hf |].
  rewrite (row_step_jti _ _ _ (row_step_revoke_row _ _ a)).
  destruct (has_jti jti a); [| auto].
  inversion Hf; subst a. eexists. split; [reflexivity |].
  unfold revoke_row. rewrite Nat.eqb_refl.
  destruct (Session.revoked_at s) eqn:E; [congruence | discriminate].
Qed.

Lemma race_inv_sessions : forall tok payload t0 rows s r j p,
  race_inv tok payload t0 rows s r j p ->
  exists extra,
    sessions (world p) = map (revoke_row (Session.id s) t0) rows ++ extra /\
    (List.length extra <= 1)%nat.
Proof.
  intros tok payload t0 rows s r j p (_ & [[_ E] | [[_ (row & E)] | [_ E]]] & _).
  - exists []. rewrite app_nil_r. auto.
  - exists [row]. auto.
  - exists []. rewrite app_nil_r. auto.
Qed.

Lemma race_inv_turn : forall tok payload t0 rows s r j p t,
  verifyRefreshToken t0 tok = Ok payload ->
  find (has_jti (RefreshPayload.jti payload)) rows = Some s ->
  race_inv tok payload t0 rows s r j p ->
  race_inv tok payload t0 rows s r j (turn p t) /\
  (t = Second -> second (turn p t) = Settled (Throw SessionRevoked)) /\
  (t = First ->
   first (turn p t) = Settled (Ok r) \/
   first (turn p t) = Settled (Throw Conflict)) /\
  (forall x, second p = Settled x -> second (turn p t) = Settled x) /\
  (forall x, first p = Settled x -> first (turn p t) = Settled x).
Proof.
  intros tok payload t0 rows s r j [w a b] t Hv Hfind Hinv.
  pose proof (race_inv_sessions _ _ _ _ _ _ _ _ Hinv) as (extra & Hrows & _).
  destruct Hinv as (Hnow & Hfirst & Hsecond). cbn [world first second] in *.
  destruct t; cbn [turn world first second].
  - (* the first call is resumed *)
    destruct Hfirst as [[-> E] | [[-> (row & E)] | [-> E]]];
      cbn [resume first second world].
    + unfold create_segment.
      match goal with
      | |- context [createSession ?f w] =>
          destruct (createSession_cases f w) as [[C _] | (row & C & _)];
            rewrite C
      end; cbn [first second world];
        (split; [| repeat split; auto; discriminate]).
      * repeat split; auto.
      * repeat split; auto. right. left. split; [reflexivity |].
        exists row. cbn. now rewrite E.
    + split; [| repeat split; auto; discriminate].
      repeat split; auto. right. left. eauto.
    + split; [| repeat split; auto; discriminate].
      repeat split; auto.
  - (* the second call is resumed *)
    assert (Hlook : lookup_segment tok w = (Throw SessionRevoked, w)).
    { unfold lookup_segment, bind, verifyRefresh. rewrite Hnow, Hv.
      rewrite findSessionByJti_reads, Hrows.
      destruct (find_revoked_after_revoke _ _ _ t0 extra Hfind)
        as (s' & -> & Hr).
      destruct (Session.revoked_at s'); [reflexivity | contradiction]. }
    destruct Hsecond as [-> | ->]; cbn [resume]; [rewrite Hlook |];
      cbn [first second world];
      (split; [repeat split; auto | repeat split; auto; discriminate]).
Qed.

Lemma race_inv_schedule : forall tok payload t0 rows s r j ts p,
  verifyRefreshToken t0 tok = Ok payload ->
  find (has_jti (RefreshPayload.jti payload)) rows = Some s ->
  race_inv tok payload t0 rows s r j p ->
  race_inv tok payload t0 rows s r j (schedule ts p) /\
  (In Second ts -> second (schedule ts p) = Settled (Throw SessionRevoked)) /\
  (In First ts ->
   first (schedule ts p) = Settled (Ok r) \/
   first (schedule ts p) = Settled (Throw Conflict)).
Proof.
  intros tok payload t0 rows s r j ts p Hv Hf. revert p.
  assert (Hkeep : forall l p x,
             race_inv tok payload t0 rows s r j p ->
             (second p = Settled x -> second (schedule l p) = Settled x) /\
             (first p = Settled x -> first (schedule l p) = Settled x)).
  { induction l as [| t l IH]; intros p x Hinv; [split; auto |].
    destruct (race_inv_turn _ _ _ _ _ _ _ _ t Hv Hf Hinv)
      as (Hinv' & _ & _ & Hs & Hfst).
    split; intro H; apply (IH (turn p t) x Hinv'); auto. }
  induction ts as [| t ts IH]; intros p Hinv.
  - split; [assumption |]. split; intros [].
  - destruct (race_inv_turn _ _ _ _ _ _ _ _ t Hv Hf Hinv)
      as (Hinv' & Hsec & Hfst & _ & _).
    destruct (IH (turn p t) Hinv') as (Hfin & Hsec' & Hfst').
    split; [exact Hfin |]. split.
    + intros [-> | Hin]; [| auto].
      apply (Hkeep ts (turn p Second) _ Hinv'). now apply Hsec.
    + intros [-> | Hin]; [| auto].
      destruct (Hfst eq_refl) as [H | H];
        [left | right]; apply (Hkeep ts (turn p First) _ Hinv'); exact H.
Qed.

(** How a task got where it is. *)
Lemma lookup_segment_ok : forall tok w payload s w',
  lookup_segment tok w = (Ok (payload, s), w') ->
  w' = w /\
  verifyRefreshToken (now w) tok = Ok payload /\
  find (has_jti (RefreshPayload.jti payload)) (sessions w) = Some s /\
  Session.revoked_at s = None /\
  Session.refresh_hash s = Some (hashToken tok).
Proof.
  intros tok w payload s w'. unfold lookup_segment, bind, verifyRefresh.
  destruct (verifyRefreshToken (now w) tok) as [p|e] eqn:Hv; [| discriminate].
  rewrite findSessionByJti_reads.
  destruct (find _ (sessions w)) as [session|] eqn:Hf; [| discriminate].
  destruct (Session.revoked_at session) eqn:Hr; [discriminate |].
  destruct (jseq _ _) eqn:Hh; [| discriminate].
  cbn [negb ret]. intro H. inversion H; subst.
  apply jseq_eq in Hh. repeat split; auto.
Qed.

Lemma issue_segment_ok : forall payload w r j w',
  issue_segment payload w = (Ok (r, j), w') ->
  w' = with_cursor (cursor w + 16) w.
Proof.
  intros payload w r j w'. unfold issue_segment, bind.
  rewrite findUserById_reads, cryptoRandomId_run.
  destruct (find _ (users w)); [| discriminate].
  unfold signAccess, signRefresh, ret. intro H. now inversion H.
Qed.

Lemma resume_to_AtFindUser : forall t w payload s w',
  resume t w = (AtFindUser payload s, w') ->
  exists tok, t = AtFindSession tok /\
              lookup_segment tok w = (Ok (payload, s), w').
Proof.
  intros [tok | p0 s0 | s0 r0 j0 | s0 r0 j0 | x] w payload s w'; cbn [resume].
  - destruct (lookup_segment tok w) as [[[p1 s1]|e] w1] eqn:E; intro H;
      inversion H; subst. eauto.
  - destruct (issue_segment p0 w) as [[[r1 j1]|e] w1]; discriminate.
  - discriminate.
  - destruct (create_segment s0 r0 j0 w) as [[row|e] w1]; discriminate.
  - discriminate.
Qed.

Lemma resume_to_AtRevoke : forall t w s r j w',
  resume t w = (AtRevoke s r j, w') ->
  exists payload, t = AtFindUser payload s /\
                  issue_segment payload w = (Ok (r, j), w').
Proof.
  intros [tok | p0 s0 | s0 r0 j0 | s0 r0 j0 | x] w s r j w'; cbn [resume].
  - destruct (lookup_segment tok w) as [[[p1 s1]|e] w1]; discriminate.
  - destruct (issue_segment p0 w) as [[[r1 j1]|e] w1] eqn:E; intro H;
      inversion H; subst. eauto.
  - discriminate.
  - destruct (create_segment s0 r0 j0 w) as [[row|e] w1]; discriminate.
  - discriminate.
Qed.

Lemma resume_to_AtCreate : forall t w s r j w',
  resume t w = (AtCreate s r j, w') ->
  t = AtRevoke s r j /\
  w' = with_sessions (map (revoke_row (Session.id s) (now w)) (sessions w)) w.
Proof.
  intros [tok | p0 s0 | s0 r0 j0 | s0 r0 j0 | x] w s r j w'; cbn [resume].
  - destruct (lookup_segment tok w) as [[[p1 s1]|e] w1]; discriminate.
  - destruct (issue_segment p0 w) as [[[r1 j1]|e] w1]; discriminate.
  - intro H. inversion H; subst. auto.
  - destruct (create_segment s0 r0 j0 w) as [[row|e] w1]; discriminate.
  - discriminate.
Qed.

(** After three turns of the first call the invariant holds, when the
    call got as far as its [createSession]. *)
Lemma race_inv_after_revoke : forall tok w s r j,
  first (after_revoke tok w) = AtCreate s r j ->
  exists payload,
    verifyRefreshToken (now w) tok = Ok payload /\
    find (has_jti (RefreshPayload.jti payload)) (sessions w) = Some s /\
    race_inv tok payload (now w) (sessions w) s r j (after_revoke tok w).
Proof.
  intros tok w s r j.
  unfold after_revoke, schedule. cbn [fold_left turn first second world].
  destruct (resume (AtFindSession tok) w) as [t1 w1] eqn:E1.
  cbn [first second world].
  destruct (resume t1 w1) as [t2 w2] eqn:E2. cbn [first second world].
  destruct (resume t2 w2) as [t3 w3] eqn:E3. cbn [first second world].
  intros ->.
  apply resume_to_AtCreate in E3 as [-> ->].
  apply resume_to_AtRevoke in E2 as (payload & -> & E2).
  apply issue_segment_ok in E2 as ->.
  apply resume_to_AtFindUser in E1 as (tok' & Et & E1).
  inversion Et; subst tok'. clear Et.
  apply lookup_segment_ok in E1 as (-> & Hv & Hf & _ & _).
  exists payload. split; [exact Hv |]. split; [exact Hf |].
  repeat split; auto.
Qed.


End Properties.

(* ------------------------------------------------------------------ *)
(** ** The service run on the sample world *)

Section Runs.

#[local] Existing Instance Sample.lib.

Import Sample.

Example login_in_w0 :
  loginWithPassword "a@x.com" "correct" meta w0 = (Ok r0, w1) /\
  sessions w1 = [session0].
Proof. split; vm_compute; reflexivity. Qed.

Example refresh_in_w1 :
  refreshSession refresh0 w1 = (Ok r1, w2) /\
  map Session.revoked_at (sessions w2) = [Some 0%Z; None].
Proof. split; vm_compute; reflexivity. Qed.

(** The replayed token meets the revoked session. *)
Lemma refresh_failure_kinds_witness :
  verifyRefreshToken (now w2) refresh0 = Ok payload0 /\
  findSessionByJti (RefreshPayload.jti payload0) w2
    = (Ok (Some (Session.revoke_at 0 session0)), w2) /\
  fst (refreshSession refresh0 w2) = Throw SessionRevoked /\
  snd (refreshSession refresh0 w2) = w2.
Proof.
  assert (Hv : verifyRefreshToken (now w2) refresh0 = Ok payload0)
    by (vm_compute; reflexivity).
  assert (Hf : findSessionByJti (RefreshPayload.jti payload0) w2
               = (Ok (Some (Session.revoke_at 0 session0)), w2))
    by (vm_compute; reflexivity).
  destruct (refresh_failure_kinds refresh0 w2 payload0 _ Hv Hf)
    as (Hrev & _ & Hsame).
  assert (Hr : fst (refreshSession refresh0 w2) = Throw SessionRevoked).
  { apply Hrev. right. eexists. split; [reflexivity | discriminate]. }
  refine (conj Hv (conj Hf (conj Hr _))).
  apply Hsame. left. exact Hr.
Defined.

(** Alice's access token before and after her session was revoked. *)
Lemma auth_ignores_sessions_witness :
  users w1 = users w2 /\ now w1 = now w2 /\
  sessions w1 <> sessions w2 /\
  auth (Request.mk (Some access0) None None) w1
    = auth (Request.mk (Some access0) None None) w2 /\
  auth (Request.mk (Some access0) None None) w2 = Attached alice.
Proof.
  assert (Hu : users w1 = users w2) by reflexivity.
  assert (Hn : now w1 = now w2) by reflexivity.
  refine (conj Hu (conj Hn (conj _ (conj _ _)))).
  - vm_compute. discriminate.
  - exact (proj1 (auth_ignores_sessions
                    (Request.mk (Some access0) None None) w1 w2 Hu Hn)).
  - vm_compute. reflexivity.
Defined.

(** A wrong password for Alice. *)
Lemma login_failures_indistinguishable_witness :
  findUserByEmail "a@x.com" w0 = (Ok (Some alice), w0) /\
  loginWithPassword "a@x.com" "wrong" meta w0 = (Throw InvalidCredentials, w0).
Proof.
  assert (Hu : findUserByEmail "a@x.com" w0 = (Ok (Some alice), w0))
    by reflexivity.
  split; [exact Hu |].
  apply (login_failures_indistinguishable "a@x.com" "wrong" meta w0 _ Hu).
  right. right. exists alice, "bcrypt(correct)". repeat split.
Defined.

(** Alice's record is gone while her session is still active. *)
Lemma refresh_missing_user_untagged_witness :
  verifyRefreshToken (now w1_orphan) refresh0 = Ok payload0 /\
  findSessionByJti (RefreshPayload.jti payload0) w1_orphan
    = (Ok (Some session0), w1_orphan) /\
  findUserById (RefreshPayload.sub payload0) w1_orphan = (Ok None, w1_orphan) /\
  refreshSession refresh0 w1_orphan
    = (Throw TypeError_null_id, with_cursor (cursor w1_orphan + 16) w1_orphan).
Proof.
  assert (Hv : verifyRefreshToken (now w1_orphan) refresh0 = Ok payload0)
    by (vm_compute; reflexivity).
  assert (Hf : findSessionByJti (RefreshPayload.jti payload0) w1_orphan
               = (Ok (Some session0), w1_orphan))
    by (vm_compute; reflexivity).
  assert (Hu : findUserById (RefreshPayload.sub payload0) w1_orphan
               = (Ok None, w1_orphan))
    by (vm_compute; reflexivity).
  refine (conj Hv (conj Hf (conj Hu _))).
  apply (refresh_missing_user_untagged refresh0 w1_orphan payload0 session0
           Hv Hf eq_refl eq_refl Hu).
Defined.

(** Alice's login in [w0]. *)
Lemma login_success_witness :
  loginWithPassword "a@x.com" "correct" meta w0 = (Ok r0, w1) /\
  exists row payload,
    sessions w1 = sessions w0 ++ [row] /\
    Session.jwt_id row = Some (drawn w0) /\
    Session.refresh_hash row = Some (hashToken (AuthResult.refresh r0)) /\
    verifyAccessToken (now w1) (AuthResult.access r0) = Ok payload /\
    AccessPayload.sub payload = Some "user:1".
Proof.
  assert (H : loginWithPassword "a@x.com" "correct" meta w0 = (Ok r0, w1))
    by (vm_compute; reflexivity).
  split; [exact H |].
  assert (Hrt : forall u, In u (users w0) ->
            let p := AccessPayload.mk (Some (User.id u)) (Some (User.email u)) in
            verifyAccessToken (now w0) (signAccessToken (now w0) p) = Ok p).
  { intros u [<- | [<- | []]]; vm_compute; reflexivity. }
  destruct (login_success "a@x.com" "correct" meta w0 r0 w1 H Hrt)
    as (row & payload & _ & _ & Hs & Hj & Hh & _ & _ & Hva & Hsub & _).
  exists row, payload.
  exact (conj Hs (conj Hj (conj Hh (conj Hva Hsub)))).
Defined.


(** Alice logs in again and a minute passes before the replay. *)
Lemma replayed_refresh_token_revoked_witness :
  let es := [Login "a@x.com" "correct" meta; Elapse 60000; Refresh refresh1] in
  refreshSession refresh0 w1 = (Ok r1, w2) /\
  verifyRefreshToken (now (history env es w2)) refresh0
    = verifyRefreshToken (now w1) refresh0 /\
  refreshSession refresh0 (history env es w2)
    = (Throw SessionRevoked, history env es w2).
Proof.
  intro es.
  assert (H : refreshSession refresh0 w1 = (Ok r1, w2))
    by (vm_compute; reflexivity).
  assert (Hsame : verifyRefreshToken (now (history env es w2)) refresh0
                  = verifyRefreshToken (now w1) refresh0)
    by (vm_compute; reflexivity).
  refine (conj H (conj Hsame _)).
  exact (proj1 (replayed_refresh_token_revoked env refresh0 w1 r1 w2 es H)
           Hsame).
Defined.


(** C1, as stated, fails: once the token has expired the replay is
    refused by the verifier, with its own error, before the session is
    looked up. *)
Lemma replay_after_expiry_not_SessionRevoked :
  refreshSession refresh0 w1 = (Ok r1, w2) /\
  w3 = history env [Elapse refresh_ttl] w2 /\
  refreshSession refresh0 w3 = (Throw TokenExpiredError, w3) /\
  fst (refreshSession refresh0 w3) <> Throw SessionRevoked.
Proof.
  split; [vm_compute; reflexivity |]. split; [reflexivity |].
  assert (H : refreshSession refresh0 w3 = (Throw TokenExpiredError, w3))
    by (vm_compute; reflexivity).
  split; [exact H |]. rewrite H. discriminate.
Qed.

(** C7, as stated, fails: an error of the provider is handed to [next]
    as it is; the handler sends no redirect at all. *)
Lemma googleCallback_error_not_redirected :
  googleCallback env (Request.mk None (Some "10.0.0.7") (Some "curl/8"))
    (Some provider_error) None w0 = (NextCalled provider_error, w0) /\
  forall cookies location,
    fst (googleCallback env (Request.mk None (Some "10.0.0.7") (Some "curl/8"))
           (Some provider_error) None w0) <> Redirected cookies location.
Proof.
  split; [reflexivity |]. intros cookies location. discriminate.
Qed.


End Runs.

(* ------------------------------------------------------------------ *)
(** ** When a refresh succeeds, and how it fails *)

Section Outcomes.

Context {lib : TokenLib}.
Variable env : Env.

(** What [refreshSession] returns and writes when nothing stands in its
    way. *)
Lemma refreshSession_accepts : forall refreshToken w payload session user,
  verifyRefreshToken (now w) refreshToken = Ok payload ->
  findSessionByJti (RefreshPayload.jti payload) w = (Ok (Some session), w) ->
  Session.revoked_at session = None ->
  Session.refresh_hash session = Some (hashToken refreshToken) ->
  findUserById (RefreshPayload.sub payload) w = (Ok (Some user), w) ->
  existsb (has_jti (Some (drawn w))) (sessions w) = false ->
  let access := signAccessToken (now w)
                  (AccessPayload.mk (Some (User.id user))
                                    (Some (User.email user))) in
  let refresh := signRefreshToken (now w)
                   (RefreshPayload.mk (Some (User.id user))
                                      (Some (drawn w))) in
  let rows := map (revoke_row (Session.id session) (now w)) (sessions w) in
  let new := Session.mk (fresh_id rows) (Some (User.id user))
               (Some (drawn w)) (Session.ip session)
               (Session.user_agent session) (Some (hashToken refresh))
               (now w) None in
  refreshSession refreshToken w =
  (Ok (AuthResult.mk user access refresh),
   with_sessions (rows ++ [new])
     (with_sessions rows (with_cursor (cursor w + 16) w))).
Proof.
  intros tok w payload session user Hv Hf Hr Hh Hu Hfresh.
  pose proof (refreshSession_checked _ _ _ _ Hv Hf Hr Hh) as Hc.
  cbv zeta in Hc. rewrite findUserById_reads in Hu.
  assert (Hfind : find (fun u => jseq (Some (User.id u))
                                      (RefreshPayload.sub payload))
                       (users w) = Some user) by congruence.
  rewrite Hfind in Hc. cbv zeta. rewrite Hc. clear Hc.
  unfold createSession.
  cbn [sessions with_sessions snd revokeSession NewSession.jwt_id now
       with_cursor].
  fold (drawn w). rewrite existsb_revoke_rows, Hfresh. reflexivity.
Qed.

(** X1: [refreshSession] succeeds exactly when the token verifies, the
    session found by its jti is active and stores the hash of the token,
    the user named by the token exists, and the identifier drawn is not
    one the table already has. *)
Theorem refreshSession_succeeds_iff :
  forall refreshToken w,
    (exists r w', refreshSession refreshToken w = (Ok r, w')) <->
    (exists payload session user,
        verifyRefreshToken (now w) refreshToken = Ok payload /\
        findSessionByJti (RefreshPayload.jti payload) w
          = (Ok (Some session), w) /\
        Session.revoked_at session = None /\
        Session.refresh_hash session = Some (hashToken refreshToken) /\
        findUserById (RefreshPayload.sub payload) w = (Ok (Some user), w) /\
        existsb (has_jti (Some (drawn w))) (sessions w) = false).
Proof.
  intros tok w. split.
  - intros (r & w' & H).
    apply refreshSession_ok_inv in H
      as (payload & session & user & row & Hv & Hf & Hr & Hh & Hu & _ & Hcr).
    exists payload, session, user. repeat split; auto.
    match type of Hcr with
    | createSession ?f ?w1 = _ =>
        destruct (createSession_cases f w1) as [[E _] | (row' & _ & Hfresh & _)];
          [rewrite E in Hcr; discriminate Hcr |]
    end.
    cbn [sessions with_sessions snd revokeSession NewSession.jwt_id]
      in Hfresh.
    now rewrite existsb_revoke_rows in Hfresh.
  - intros (payload & session & user & Hv & Hf & Hr & Hh & Hu & Hfresh).
    pose proof (refreshSession_accepts _ _ _ _ _ Hv Hf Hr Hh Hu Hfresh) as H.
    cbv zeta in H. eauto.
Qed.

(** X2: a failing [refreshSession] throws the verifier's own error,
    SessionRevoked, InvalidToken, the TypeError for a missing user, or the
    store's Conflict.  The first three leave the world as it was and the
    fourth only draws an identifier; in the Conflict case the session of
    the presented token has been revoked although no new session was
    written. *)
Theorem refreshSession_failures :
  forall refreshToken w e w',
    refreshSession refreshToken w = (Throw e, w') ->
    (verifyRefreshToken (now w) refreshToken = Throw e /\ w' = w) \/
    (e = SessionRevoked /\ w' = w) \/
    (e = InvalidToken /\ w' = w) \/
    (e = TypeError_null_id /\ w' = with_cursor (cursor w + 16) w) \/
    (e = Conflict /\
     exists payload old,
       verifyRefreshToken (now w) refreshToken = Ok payload /\
       findSessionByJti (RefreshPayload.jti payload) w = (Ok (Some old), w) /\
       Session.revoked_at old = None /\
       sessions w' = map (revoke_row (Session.id old) (now w)) (sessions w) /\
       findSessionByJti (RefreshPayload.jti payload) w'
         = (Ok (Some (Session.revoke_at (now w) old)), w')).
Proof.
  intros tok w e w' H.
  destruct (verifyRefreshToken (now w) tok) as [payload|e0] eqn:Hv.
  2:{ rewrite (refreshSession_unverified _ _ _ Hv) in H.
      inversion H; subst. auto. }
  pose proof (findSessionByJti_reads (RefreshPayload.jti payload) w) as Hf.
  destruct (find _ (sessions w)) as [session|] eqn:Hfind.
  2:{ rewrite (refreshSession_absent _ _ _ Hv Hf) in H.
      inversion H; subst. auto. }
  destruct (Session.revoked_at session) as [ts|] eqn:Hr.
  { rewrite (refreshSession_revoked _ _ _ _ _ Hv Hf Hr) in H.
    inversion H; subst. auto. }
  destruct (jseq (Session.refresh_hash session) (Some (hashToken tok))) eqn:Hh.
  2:{ apply jseq_neq in Hh.
      rewrite (refreshSession_mismatch _ _ _ _ Hv Hf Hr Hh) in H.
      inversion H; subst. auto. }
  apply jseq_eq in Hh.
  pose proof (findUserById_reads (RefreshPayload.sub payload) w) as Hu.
  pose proof (refreshSession_checked _ _ _ _ Hv Hf Hr Hh) as Hc.
  cbv zeta in Hc.
  destruct (find _ (users w)) as [user|].
  2:{ rewrite Hc in H. inversion H; subst. auto 6. }
  clear Hc.
  destruct (existsb (has_jti (Some (drawn w))) (sessions w)) eqn:Hfresh.
  - rewrite (refreshSession_conflict _ _ _ _ _ Hv Hf Hr Hh Hu Hfresh) in H.
    inversion H; subst. right. right. right. right.
    split; [reflexivity |]. exists payload, session.
    split; [reflexivity |]. split; [exact Hf |]. split; [exact Hr |].
    split; [reflexivity |].
    rewrite findSessionByJti_reads.
    cbn [sessions with_sessions]. f_equal. f_equal.
    clear Hf H Hfresh. induction (sessions w) as [| a rows IH];
      simpl in *; [discriminate Hfind |].
    rewrite has_jti_revoke_row.
    destruct (has_jti _ a); [| auto].
    inversion Hfind; subst a. unfold revoke_row.
    rewrite Nat.eqb_refl, Hr. reflexivity.
  - pose proof (refreshSession_accepts _ _ _ _ _ Hv Hf Hr Hh Hu Hfresh) as E.
    cbv zeta in E. rewrite E in H. discriminate H.
Qed.

End Outcomes.

(* ------------------------------------------------------------------ *)
(** ** Login outcomes, and tokens put to use *)

Section Composition.

Context {lib : TokenLib}.
Variable env : Env.

(** [loginWithPassword] once the credential is accepted. *)
Lemma loginWithPassword_checked : forall email password meta w user hash,
  findUserByEmail email w = (Ok (Some user), w) ->
  User.password_hash user = Some hash ->
  hash <> "" ->
  bcrypt_compare password hash = true ->
  let access := signAccessToken (now w)
                  (AccessPayload.mk (Some (User.id user))
                                    (Some (User.email user))) in
  let refresh := signRefreshToken (now w)
                   (RefreshPayload.mk (Some (User.id user))
                                      (Some (drawn w))) in
  loginWithPassword email password meta w =
  match createSession
          (NewSession.mk (Some (User.id user)) (Some (drawn w))
             (Meta.ip meta) (Meta.user_agent meta)
             (Some (hashToken refresh)))
          (with_cursor (cursor w + 16) w) with
  | (Ok _, w') => (Ok (AuthResult.mk user access refresh), w')
  | (Throw e, w') => (Throw e, w')
  end.
Proof.
  intros email password meta w user hash Hu Hh Hne Hc.
  unfold loginWithPassword, bind. rewrite Hu, Hh.
  apply String.eqb_neq in Hne. rewrite Hne, Hc. cbn [negb].
  rewrite cryptoRandomId_run. reflexivity.
Qed.

(** X3: a password login ends in one of three ways: InvalidCredentials
    with the world as it was; the store's Conflict, when the identifier
    drawn is taken, with nothing but the entropy consumed; or success,
    with exactly one active row appended for the user.  In no case is an
    existing session row changed or removed, or the user table or the
    clock touched. *)
Theorem loginWithPassword_outcomes :
  forall email password meta w,
    (loginWithPassword email password meta w = (Throw InvalidCredentials, w) \/
     (loginWithPassword email password meta w
        = (Throw Conflict, with_cursor (cursor w + 16) w) /\
      existsb (has_jti (Some (drawn w))) (sessions w) = true) \/
     (exists r row,
         loginWithPassword email password meta w
           = (Ok r, with_sessions (sessions w ++ [row])
                      (with_cursor (cursor w + 16) w)) /\
         Session.revoked_at row = None /\
         Session.user_id row = Some (User.id (AuthResult.user r)) /\
         existsb (has_jti (Some (drawn w))) (sessions w) = false)) /\
    firstn (List.length (sessions w))
      (sessions (snd (loginWithPassword email password meta w)))
      = sessions w /\
    users (snd (loginWithPassword email password meta w)) = users w /\
    now (snd (loginWithPassword email password meta w)) = now w.
Proof.
  intros email password meta w.
  assert (Hpre : forall l (x : Session.t),
             firstn (List.length l) (l ++ [x]) = l).
  { intros l x. rewrite firstn_app, firstn_all, Nat.sub_diag. simpl.
    apply app_nil_r. }
  assert (Hu : findUserByEmail email w =
               (Ok (find (fun u => lower (User.email u) =? lower email)
                         (users w)), w)) by reflexivity.
  destruct (find _ (users w)) as [user|].
  2:{ assert (E : loginWithPassword email password meta w
                  = (Throw InvalidCredentials, w)).
      { unfold loginWithPassword, bind. rewrite Hu. reflexivity. }
      rewrite E. simpl. rewrite firstn_all. auto. }
  destruct (User.password_hash user) as [hash|] eqn:Hh.
  2:{ assert (E : loginWithPassword email password meta w
                  = (Throw InvalidCredentials, w)).
      { unfold loginWithPassword, bind. rewrite Hu, Hh. reflexivity. }
      rewrite E. simpl. rewrite firstn_all. auto. }
  destruct (String.eqb_spec hash "") as [He | He].
  { assert (E : loginWithPassword email password meta w
                = (Throw InvalidCredentials, w)).
    { unfold loginWithPassword, bind. rewrite Hu, Hh. subst hash.
      reflexivity. }
    rewrite E. simpl. rewrite firstn_all. auto. }
  destruct (bcrypt_compare password hash) eqn:Hc.
  2:{ assert (E : loginWithPassword email password meta w
                  = (Throw InvalidCredentials, w)).
      { unfold loginWithPassword, bind. rewrite Hu, Hh.
        apply String.eqb_neq in He. rewrite He, Hc. reflexivity. }
      rewrite E. simpl. rewrite firstn_all. auto. }
  pose proof (loginWithPassword_checked _ _ meta _ _ _ Hu Hh He Hc) as E.
  cbv zeta in E. rewrite E.
  match goal with
  | |- context [createSession ?f ?w1] =>
      destruct (createSession_cases f w1)
        as [[C Ht] | (row & C & Hf & _ & _ & _ & _ & Eu & Erev)];
        rewrite C
  end.
  - cbn [snd sessions users now with_cursor]. rewrite firstn_all.
    split; [| auto]. right. left. auto.
  - cbn [snd sessions users now with_cursor with_sessions].
    rewrite Hpre. split; [| auto]. right. right.
    eexists. exists row. repeat split; auto.
Qed.

Lemma find_fresh_row : forall jti rows (row : Session.t),
  existsb (has_jti jti) rows = false ->
  has_jti jti row = true ->
  find (has_jti jti) (rows ++ [row]) = Some row.
Proof.
  intros jti rows row. induction rows as [| a rows IH]; simpl; intros Hf Hr.
  - now rewrite Hr.
  - apply orb_false_iff in Hf as [Ha Hrest]. rewrite Ha. auto.
Qed.

Lemma find_user_by_id : forall (u : User.t) us,
  In u us ->
  exists u', find (fun x => jseq (Some (User.id x)) (Some (User.id u))) us
             = Some u' /\ User.id u' = User.id u /\ In u' us.
Proof.
  intros u us. induction us as [| a us IH]; simpl; [intros [] |].
  intros [-> | Hin].
  - rewrite String.eqb_refl. eauto.
  - destruct (String.eqb_spec (User.id a) (User.id u)) as [E | E].
    + eauto.
    + destruct (IH Hin) as (u' & Hf & Hid & Hin'). eauto.
Qed.

(** A refresh token whose session is the last row written, under an
    identifier no earlier row has, is accepted. *)
Lemma refreshSession_of_last_row :
  forall refreshToken w rows row payload user,
    sessions w = rows ++ [row] ->
    existsb (has_jti (RefreshPayload.jti payload)) rows = false ->
    Session.jwt_id row = RefreshPayload.jti payload ->
    Session.revoked_at row = None ->
    Session.refresh_hash row = Some (hashToken refreshToken) ->
    verifyRefreshToken (now w) refreshToken = Ok payload ->
    findUserById (RefreshPayload.sub payload) w = (Ok (Some user), w) ->
    existsb (has_jti (Some (drawn w))) (sessions w) = false ->
    exists r new,
      refreshSession refreshToken w
        = (Ok r, with_sessions
                   (map (revoke_row (Session.id row) (now w)) (sessions w)
                    ++ [new])
                   (with_sessions
                      (map (revoke_row (Session.id row) (now w)) (sessions w))
                      (with_cursor (cursor w + 16) w))) /\
      AuthResult.user r = user /\
      Session.user_id new = Some (User.id user) /\
      Session.ip new = Session.ip row /\
      Session.user_agent new = Session.user_agent row /\
      Session.revoked_at new = None.
Proof.
  intros tok w rows row payload user Hrows Hfresh Hj Hr Hh Hv Hu Hnew.
  assert (Hf : findSessionByJti (RefreshPayload.jti payload) w
               = (Ok (Some row), w)).
  { rewrite findSessionByJti_reads, Hrows.
    rewrite (find_fresh_row _ _ _ Hfresh); [reflexivity |].
    unfold has_jti. now apply jseq_eq. }
  pose proof (refreshSession_accepts _ _ _ _ _ Hv Hf Hr Hh Hu Hnew) as E.
  cbv zeta in E. rewrite E. eexists. eexists.
  split; [reflexivity |]. repeat split.
Qed.

(** X4: the refresh token a successful login returns is accepted by
    [refreshSession] right away, provided the verifier returns the
    payload it was signed with and the next identifier drawn is not
    taken: the refresh succeeds for a user with the same id, revokes the
    login's session and writes a new active one that carries the login's
    IP and user agent. *)
Theorem login_then_refresh :
  forall email password meta w r w1,
    loginWithPassword email password meta w = (Ok r, w1) ->
    verifyRefreshToken (now w1) (AuthResult.refresh r)
      = Ok (RefreshPayload.mk (Some (User.id (AuthResult.user r)))
                              (Some (drawn w))) ->
    existsb (has_jti (Some (drawn w1))) (sessions w1) = false ->
    exists r2 w2 old new,
      refreshSession (AuthResult.refresh r) w1 = (Ok r2, w2) /\
      User.id (AuthResult.user r2) = User.id (AuthResult.user r) /\
      sessions w1 = sessions w ++ [old] /\
      sessions w2 = map (revoke_row (Session.id old) (now w1)) (sessions w1)
                    ++ [new] /\
      Session.ip new = Meta.ip meta /\
      Session.user_agent new = Meta.user_agent meta /\
      Session.revoked_at new = None /\
      findSessionByJti (Some (drawn w)) w2
        = (Ok (Some (Session.revoke_at (now w1) old)), w2).
Proof.
  intros email password meta w r w1 H Hv Hnew.
  apply loginWithPassword_ok_inv in H
    as (user & h & row & Hu & Hh & Hne & Hc & Hr & Hcr).
  assert (Eu : AuthResult.user r = user) by (subst r; reflexivity).
  match type of Hcr with
  | createSession ?f ?w0 = _ =>
      destruct (createSession_cases f w0)
        as [[C _] | (row' & C & Hfresh & Ej & Erh & Eip & Eua & Euid & Erev)];
        rewrite C in Hcr; [discriminate Hcr |]
  end.
  inversion Hcr; subst row' w1. clear Hcr C.
  cbn [NewSession.jwt_id NewSession.refresh_hash NewSession.ip
       NewSession.user_agent NewSession.user_id sessions with_cursor]
    in Hfresh, Ej, Erh, Eip, Eua, Euid.
  assert (Hin : In user (users w)).
  { unfold findUserByEmail in Hu. inversion Hu as [Hfind].
    apply find_some in Hfind. tauto. }
  destruct (find_user_by_id user (users w) Hin) as (u' & Hfu & Hid & _).
  rewrite Eu in Hv.
  destruct (refreshSession_of_last_row (AuthResult.refresh r)
              (with_sessions (sessions w ++ [row])
                 (with_cursor (cursor w + 16) w))
              (sessions w) row
              (RefreshPayload.mk (Some (User.id user)) (Some (drawn w)))
              u' eq_refl Hfresh Ej Erev Erh Hv)
    as (r2 & new & E & Eu2 & _ & Eip2 & Eua2 & Erev2).
  { rewrite findUserById_reads. cbn [RefreshPayload.sub users with_sessions
                                     with_cursor]. now rewrite Hfu. }
  { exact Hnew. }
  exists r2. eexists. exists row, new.
  split; [exact E |]. rewrite Eu2, Eu.
  split; [exact Hid |]. split; [reflexivity |]. split; [reflexivity |].
  split; [congruence |]. split; [congruence |]. split; [exact Erev2 |].
  rewrite findSessionByJti_reads. do 2 f_equal.
  cbn [sessions with_sessions now with_cursor].
  rewrite map_app, <- app_assoc. simpl.
  assert (Hfind : forall rows,
             existsb (has_jti (Some (drawn w))) rows = false ->
             find (has_jti (Some (drawn w)))
               (map (revoke_row (Session.id row) (now w)) rows
                ++ revoke_row (Session.id row) (now w) row :: [new])
             = Some (Session.revoke_at (now w) row)).
  { induction rows as [| a rows IH]; simpl; intro Hfr.
    - rewrite has_jti_revoke_row.
      replace (has_jti (Some (drawn w)) row) with true
        by (symmetry; unfold has_jti; now apply jseq_eq).
      unfold revoke_row. rewrite Nat.eqb_refl, Erev. reflexivity.
    - apply orb_false_iff in Hfr as [Ha Hrest].
      rewrite has_jti_revoke_row, Ha. auto. }
  apply Hfind. exact Hfresh.
Qed.

End Composition.

(* ------------------------------------------------------------------ *)
(** ** Rotation chains, and access tokens at the gate *)

Section Chains.

Context {lib : TokenLib}.
Variable env : Env.

(** X5: the refresh token a successful refresh returns is accepted by
    the next [refreshSession], provided the verifier returns the payload
    it was signed with and the next identifier drawn is not taken: the
    chain goes on for the same user, the session of the first rotation is
    revoked in turn, and the newest session still carries the IP and user
    agent of the session the chain started from. *)
Theorem refresh_then_refresh :
  forall refreshToken w r w1,
    refreshSession refreshToken w = (Ok r, w1) ->
    verifyRefreshToken (now w1) (AuthResult.refresh r)
      = Ok (RefreshPayload.mk (Some (User.id (AuthResult.user r)))
                              (Some (drawn w))) ->
    existsb (has_jti (Some (drawn w1))) (sessions w1) = false ->
    exists r2 w2 payload first mid new,
      refreshSession (AuthResult.refresh r) w1 = (Ok r2, w2) /\
      AuthResult.user r2 = AuthResult.user r /\
      verifyRefreshToken (now w) refreshToken = Ok payload /\
      findSessionByJti (RefreshPayload.jti payload) w
        = (Ok (Some first), w) /\
      sessions w1 = map (revoke_row (Session.id first) (now w)) (sessions w)
                    ++ [mid] /\
      sessions w2 = map (revoke_row (Session.id mid) (now w1)) (sessions w1)
                    ++ [new] /\
      Session.ip new = Session.ip first /\
      Session.user_agent new = Session.user_agent first /\
      Session.revoked_at new = None.
Proof.
  intros tok w r w1 H Hv Hnew.
  apply refreshSession_ok_inv in H
    as (payload & first & user & mid & Hv0 & Hf & Hr & Hh & Hu & Er & Hcr).
  assert (Eu : AuthResult.user r = user) by (subst r; reflexivity).
  match type of Hcr with
  | createSession ?f ?w0 = _ =>
      destruct (createSession_cases f w0)
        as [[C _] | (row' & C & Hfresh & Ej & Erh & Eip & Eua & Euid & Erev)];
        rewrite C in Hcr; [discriminate Hcr |]
  end.
  inversion Hcr; subst row' w1. clear Hcr C.
  cbn [NewSession.jwt_id NewSession.refresh_hash NewSession.ip
       NewSession.user_agent NewSession.user_id sessions with_cursor
       with_sessions snd revokeSession now]
    in Hfresh, Ej, Erh, Eip, Eua, Euid.
  (* the user the token names is found again *)
  rewrite findUserById_reads in Hu.
  assert (Hfu : find (fun u => jseq (Some (User.id u))
                                    (RefreshPayload.sub payload))
                     (users w) = Some user) by congruence.
  pose proof (find_some _ _ Hfu) as [_ Hsub]. apply jseq_eq in Hsub.
  rewrite Eu in Hv.
  match type of Hv with
  | verifyRefreshToken (now ?W) _ = _ =>
      destruct (refreshSession_of_last_row (AuthResult.refresh r) W
                  (map (revoke_row (Session.id first) (now w)) (sessions w))
                  mid
                  (RefreshPayload.mk (Some (User.id user)) (Some (drawn w)))
                  user eq_refl Hfresh Ej Erev Erh Hv)
        as (r2 & new & E & Eu2 & _ & Eip2 & Eua2 & Erev2)
  end.
  { rewrite findUserById_reads.
    cbn [RefreshPayload.sub users with_sessions with_cursor].
    rewrite Hsub, Hfu. reflexivity. }
  { exact Hnew. }
  cbn [sessions with_sessions now with_cursor] in E.
  exists r2. eexists. exists payload, first, mid, new.
  split; [exact E |]. split; [congruence |]. split; [exact Hv0 |].
  split; [exact Hf |]. split; [reflexivity |]. split; [reflexivity |].
  split; [congruence |]. split; [congruence | exact Erev2].
Qed.

(** [auth] on a request whose cookie holds a non-empty token. *)
Lemma auth_with_token : forall req w token,
  Request.access_token req = Some token -> token <> "" ->
  auth req w =
  match verifyAccessToken (now w) token with
  | Ok payload =>
      match find (fun u => jseq (Some (User.id u))
                                (AccessPayload.sub payload))
                 (users w) with
      | Some u => Attached u
      | None => Responded 401 "Unauthorized"
      end
  | Throw _ => Responded 401 "Unauthorized"
  end.
Proof.
  intros req w token Ht Hne. unfold auth, bind, verifyAccess. rewrite Ht.
  cbn [or_default]. apply String.eqb_neq in Hne. rewrite Hne.
  cbv iota. rewrite Hne.
  destruct (verifyAccessToken (now w) token); [| reflexivity].
  rewrite findUserById_reads. destruct (find _ (users w)); reflexivity.
Qed.

(** X6: [auth] lets a request through exactly when its cookie holds a
    non-empty access token that verifies and whose subject is the id of
    a user of the table, and then attaches that user; every other
    request gets the same response, status 401 with the error
    "Unauthorized". *)
Theorem auth_attaches_iff :
  forall req w,
    (forall u,
        auth req w = Attached u <->
        exists token payload,
          Request.access_token req = Some token /\ token <> "" /\
          verifyAccessToken (now w) token = Ok payload /\
          findUserById (AccessPayload.sub payload) w = (Ok (Some u), w)) /\
    (auth req w = Responded 401 "Unauthorized" \/
     exists u, auth req w = Attached u /\ In u (users w)).
Proof.
  intros req w.
  pose proof (fun token => auth_with_token req w token) as Hrun.
  assert (Hno : (Request.access_token req = None \/
                 Request.access_token req = Some "") ->
                auth req w = Responded 401 "Unauthorized").
  { intros [E | E]; unfold auth; rewrite E; reflexivity. }
  split.
  - intro u. split.
    + intro H. destruct (Request.access_token req) as [token|] eqn:Ht.
      2:{ rewrite Hno in H by auto. discriminate H. }
      destruct (String.eqb_spec token "") as [He | He].
      { subst token. rewrite Hno in H by auto. discriminate H. }
      rewrite (Hrun token eq_refl He) in H.
      destruct (verifyAccessToken (now w) token) as [payload|e] eqn:Hv;
        [| discriminate H].
      destruct (find _ (users w)) as [u'|] eqn:Hf; [| discriminate H].
      inversion H; subst u'. exists token, payload.
      rewrite findUserById_reads, Hf. auto.
    + intros (token & payload & Ht & Hne & Hv & Hu).
      rewrite (Hrun token Ht Hne), Hv.
      rewrite findUserById_reads in Hu.
      assert (Hf : find (fun u => jseq (Some (User.id u))
                                       (AccessPayload.sub payload))
                        (users w) = Some u) by congruence.
      now rewrite Hf.
  - destruct (Request.access_token req) as [token|] eqn:Ht; [| auto].
    destruct (String.eqb_spec token "") as [He | He];
      [subst token; auto |].
    rewrite (Hrun token eq_refl He).
    destruct (verifyAccessToken (now w) token) as [payload|e]; [| auto].
    destruct (find _ (users w)) as [u|] eqn:Hf; [| auto].
    right. exists u. apply find_some in Hf as [Hin Hj]. auto.
Qed.

(** X7: the access token a successful login returns opens the [auth]
    gate in the world the login leaves, provided it is not the empty
    string and the verifier returns the payload it was signed with: the
    request gets a user of the table with the id of the user who logged
    in. *)
Theorem login_then_auth :
  forall email password meta w r w1 ip user_agent,
    loginWithPassword email password meta w = (Ok r, w1) ->
    AuthResult.access r <> "" ->
    verifyAccessToken (now w1) (AuthResult.access r)
      = Ok (AccessPayload.mk (Some (User.id (AuthResult.user r)))
                             (Some (User.email (AuthResult.user r)))) ->
    exists u,
      auth (Request.mk (Some (AuthResult.access r)) ip user_agent) w1
        = Attached u /\
      User.id u = User.id (AuthResult.user r) /\ In u (users w1).
Proof.
  intros email password meta w r w1 ip ua H Hne Hv.
  apply loginWithPassword_ok_inv in H
    as (user & h & row & Hu & _ & _ & _ & Hr & Hcr).
  assert (Hus : users w1 = users w /\ now w1 = now w).
  { match type of Hcr with
    | createSession ?f ?w0 = _ =>
        destruct (createSession_cases f w0) as [[C _] | (row' & C & _)];
          rewrite C in Hcr; [discriminate Hcr |]
    end.
    inversion Hcr; subst. auto. }
  destruct Hus as [Hus Hnow].
  assert (Eu : AuthResult.user r = user) by (subst r; reflexivity).
  assert (Hin : In user (users w)).
  { unfold findUserByEmail in Hu. inversion Hu as [Hfind].
    apply find_some in Hfind. tauto. }
  destruct (find_user_by_id user (users w) Hin) as (u' & Hfu & Hid & Hin').
  exists u'. rewrite Eu. split; [| split; [exact Hid | now rewrite Hus]].
  rewrite (auth_with_token (Request.mk (Some (AuthResult.access r)) ip ua)
             w1 (AuthResult.access r) eq_refl Hne), Hv.
  cbn [AccessPayload.sub]. rewrite Eu, Hus, Hfu. reflexivity.
Qed.

End Chains.

(* ------------------------------------------------------------------ *)
(** ** Token identifiers *)

Lemma hex_digit_cases : forall n, (n < 16)%N ->
  is_lower_hex (hex_digit n) = true /\ hex_value (hex_digit n) = n.
Proof.
  intros n Hn. rewrite <- (N2Nat.id n).
  assert (Hm : (N.to_nat n < 16)%nat) by lia.
  revert Hm. generalize (N.to_nat n). clear n Hn. intro m.
  do 16 (destruct m as [| m]; [intros _; split; reflexivity |]).
  intro Hm. lia.
Qed.

Lemma byte_nibbles : forall b,
  (Byte.to_N b / 16 < 16)%N /\ (Byte.to_N b mod 16 < 16)%N.
Proof.
  intro b. pose proof (Byte.to_N_bounded b) as Hb. split.
  - apply N.Div0.div_lt_upper_bound. lia.
  - apply N.mod_lt. discriminate.
Qed.

Lemma toHex_length : forall bs,
  String.length (toHex bs) = (2 * List.length bs)%nat.
Proof.
  induction bs as [| b bs IH]; simpl; [reflexivity |]. rewrite IH. lia.
Qed.

Lemma toHex_lower_hex : forall bs,
  Forall (fun c => is_lower_hex c = true) (list_ascii_of_string (toHex bs)).
Proof.
  induction bs as [| b bs IH]; simpl; [constructor |].
  destruct (byte_nibbles b) as [Hh Hl].
  constructor; [apply hex_digit_cases, Hh |].
  constructor; [apply hex_digit_cases, Hl | exact IH].
Qed.

Lemma toHex_injective : forall bs1 bs2, toHex bs1 = toHex bs2 -> bs1 = bs2.
Proof.
  induction bs1 as [| a bs1 IH]; intros [| b bs2] H; simpl in H;
    try discriminate H; [reflexivity |].
  inversion H as [[Hh Hl Hrest]].
  destruct (byte_nibbles a) as [Ha1 Ha2].
  destruct (byte_nibbles b) as [Hb1 Hb2].
  apply (f_equal hex_value) in Hh, Hl.
  rewrite !(proj2 (hex_digit_cases _ Ha1)), !(proj2 (hex_digit_cases _ Hb1))
    in Hh.
  rewrite !(proj2 (hex_digit_cases _ Ha2)), !(proj2 (hex_digit_cases _ Hb2))
    in Hl.
  assert (Hn : Byte.to_N a = Byte.to_N b).
  { rewrite (N.div_mod (Byte.to_N a) 16), (N.div_mod (Byte.to_N b) 16)
      by discriminate.
    now rewrite Hh, Hl. }
  assert (Hab : a = b).
  { pose proof (Byte.of_to_N a) as Ea. pose proof (Byte.of_to_N b) as Eb.
    rewrite Hn in Ea. congruence. }
  subst b. f_equal. now apply IH.
Qed.

(** X8: [cryptoRandomId] never fails; it consumes exactly sixteen bytes
    of entropy and nothing else of the world, and the identifier it
    returns is thirty-two characters long, each of them one of
    [0-9a-f]. *)
Theorem cryptoRandomId_shape :
  forall w,
    exists id,
      cryptoRandomId w = (Ok id, with_cursor (cursor w + 16) w) /\
      String.length id = 32%nat /\
      Forall (fun c => is_lower_hex c = true) (list_ascii_of_string id).
Proof.
  intro w. exists (drawn w). split; [apply cryptoRandomId_run |].
  unfold drawn. split.
  - now rewrite toHex_length, length_map, length_seq.
  - apply toHex_lower_hex.
Qed.

(** X9: two calls of [cryptoRandomId] return the same identifier only
    when they read the same sixteen bytes: the hexadecimal rendering
    loses nothing, so identifiers collide no more often than the random
    bytes do. *)
Theorem cryptoRandomId_injective :
  forall w1 w2,
    fst (cryptoRandomId w1) = fst (cryptoRandomId w2) ->
    map (entropy w1) (seq (cursor w1) 16)
    = map (entropy w2) (seq (cursor w2) 16).
Proof.
  intros w1 w2 H. rewrite !cryptoRandomId_run in H. cbn [fst] in H.
  apply (f_equal (fun x => match x with Ok id => id | Throw _ => "" end))
    in H.
  apply toHex_injective. exact H.
Qed.

(* ------------------------------------------------------------------ *)
(** ** Well-formed tables, and counting active sessions *)

Lemma keeps_ret : forall P A (a : A), keeps P (ret a).
Proof. intros P A a w H. exact H. Qed.

Lemma keeps_throw : forall P A e, keeps P (@throw A e).
Proof. intros P A e w H. exact H. Qed.

Lemma keeps_bind : forall P A B (m : M A) (k : A -> M B),
  keeps P m -> (forall a, keeps P (k a)) -> keeps P (bind m k).
Proof.
  intros P A B m k Hm Hk w H. unfold bind. specialize (Hm w H).
  destruct (m w) as [[a|e] w1]; simpl in *; [| assumption].
  now apply Hk.
Qed.

Lemma keeps_reads : forall P A (f : World -> Result A),
  keeps P (fun w => (f w, w)).
Proof. intros P A f w H. exact H. Qed.

Lemma keeps_cryptoRandomId : forall P, keeps P cryptoRandomId.
Proof. intros P w H. exact H. Qed.

Lemma map_id_revoke_rows : forall sid ts rows,
  map Session.id (map (revoke_row sid ts) rows) = map Session.id rows /\
  map Session.jwt_id (map (revoke_row sid ts) rows)
    = map Session.jwt_id rows.
Proof.
  intros sid ts rows. rewrite !map_map. split; apply map_ext; intro s;
    unfold revoke_row; destruct (Nat.eqb _ _); try reflexivity;
    destruct (Session.revoked_at s); reflexivity.
Qed.

Lemma keeps_revokeSession : forall sid, keeps well_formed (revokeSession sid).
Proof.
  intros sid w [Hi Hj]. unfold well_formed, unique_ids, unique_jtis.
  cbn [revokeSession snd sessions with_sessions].
  destruct (map_id_revoke_rows sid (now w) (sessions w)) as [-> ->]. auto.
Qed.

Lemma fresh_id_fresh : forall rows, ~ In (fresh_id rows) (map Session.id rows).
Proof.
  intros rows Hin. unfold fresh_id in Hin.
  assert (H : forall l n, In n l -> (n <= list_max l)%nat).
  { induction l as [| a l IH]; simpl; [intros n [] |].
    intros n [-> | Hn]; [lia |]. specialize (IH n Hn). lia. }
  apply H in Hin. lia.
Qed.

Lemma existsb_has_jti_false : forall jti rows,
  existsb (has_jti jti) rows = false -> ~ In jti (map Session.jwt_id rows).
Proof.
  intros jti rows. induction rows as [| a rows IH]; simpl; [tauto |].
  intros H [Ha | Hin]; apply orb_false_iff in H as [H1 H2].
  - unfold has_jti in H1. apply jseq_neq in H1. contradiction.
  - now apply IH.
Qed.

Lemma keeps_createSession : forall f, keeps well_formed (createSession f).
Proof.
  intros f w [Hi Hj].
  destruct (createSession_cases f w)
    as [[E _] | (row & E & Hfresh & Ej & _)]; rewrite E; [split; assumption |].
  assert (Eid : Session.id row = fresh_id (sessions w)).
  { unfold createSession in E. rewrite Hfresh in E. now inversion E. }
  cbn [snd sessions with_sessions]. unfold well_formed, unique_ids, unique_jtis.
  rewrite !map_app. simpl. split.
  - apply NoDup_app; [exact Hi | constructor; [tauto | constructor] |].
    intros x Hx [<- | []]. rewrite Eid in Hx.
    now apply fresh_id_fresh in Hx.
  - apply NoDup_app; [exact Hj | constructor; [tauto | constructor] |].
    intros x Hx [<- | []]. rewrite Ej in Hx.
    now apply existsb_has_jti_false in Hx.
Qed.

Ltac keeps_step :=
  first
    [ apply keeps_ret
    | apply keeps_throw
    | apply keeps_cryptoRandomId
    | apply keeps_revokeSession
    | apply keeps_createSession
    | apply (keeps_reads _ _ (fun w => Ok _))
    | apply (keeps_reads _ _ (fun w => verifyRefreshToken (now w) _))
    | apply keeps_bind; [| intro]
    | match goal with
      | |- keeps _ (match ?x with _ => _ end) => destruct x
      end ].

Section Tables.

Context {lib : TokenLib}.
Variable env : Env.

Lemma keeps_loginWithPassword : forall email password meta,
  keeps well_formed (loginWithPassword email password meta).
Proof.
  intros. unfold loginWithPassword, findUserByEmail, signAccess, signRefresh.
  repeat keeps_step.
Qed.

Lemma keeps_refreshSession : forall refreshToken,
  keeps well_formed (refreshSession refreshToken).
Proof.
  intros. unfold refreshSession, verifyRefresh, findSessionByJti,
    findUserById, signAccess, signRefresh.
  repeat keeps_step.
Qed.

Lemma googleCallback_well_formed : forall req err user w,
  well_formed (sessions w) ->
  well_formed (sessions (snd (googleCallback env req err user w))).
Proof.
  intros req err user w Hw. unfold googleCallback.
  destruct err as [e|]; [exact Hw |].
  match goal with
  | |- context [match ?m w with _ => _ end] =>
      assert (H : keeps well_formed m)
        by (unfold signAccess, signRefresh; repeat keeps_step);
      specialize (H w Hw); destruct (m w) as [[[access refresh]|e] w']
  end; exact H.
Qed.

(** X10: in every history of the service (logins, refreshes, provider
    callbacks, revocations, clock and user-table changes) a session
    table in which no two rows share a record id or a token identifier
    stays such a table: no operation writes a second session under an
    identifier already there. *)
Theorem history_well_formed :
  forall es w,
    well_formed (sessions w) -> well_formed (sessions (history env es w)).
Proof.
  unfold history. induction es as [| e es IH]; intros w Hw; [exact Hw |].
  simpl. apply IH.
  destruct e as [email password meta | tok | req err user | sid | t | us];
    simpl.
  - now apply keeps_loginWithPassword.
  - now apply keeps_refreshSession.
  - now apply googleCallback_well_formed.
  - now apply (keeps_revokeSession sid w).
  - exact Hw.
  - exact Hw.
Qed.

Lemma revoke_rows_other : forall sid ts rows,
  ~ In sid (map Session.id rows) -> map (revoke_row sid ts) rows = rows.
Proof.
  intros sid ts rows. induction rows as [| a rows IH]; simpl; [reflexivity |].
  intro H. rewrite IH by tauto. unfold revoke_row.
  destruct (Nat.eqb_spec (Session.id a) sid); [tauto | reflexivity].
Qed.

Lemma active_count_revoke : forall old ts rows,
  unique_ids rows -> In old rows -> Session.revoked_at old = None ->
  S (active_count (map (revoke_row (Session.id old) ts) rows))
  = active_count rows.
Proof.
  intros old ts rows. unfold unique_ids, active_count.
  induction rows as [| a rows IH]; simpl; [intros _ [] |].
  intros Hnd Hin Hr. inversion Hnd as [| x l Hnotin Hnd']; subst.
  destruct (Nat.eqb_spec (Session.id a) (Session.id old)) as [E | E].
  - assert (a = old).
    { destruct Hin as [-> | Hin]; [reflexivity |].
      exfalso. apply Hnotin. rewrite E. now apply in_map. }
    subst a. rewrite revoke_rows_other by exact Hnotin.
    unfold revoke_row. rewrite Nat.eqb_refl, Hr.
    assert (Ha : active old = true) by (unfold active; now rewrite Hr).
    assert (Hb : active (Session.revoke_at ts old) = false) by reflexivity.
    rewrite Ha, Hb. reflexivity.
  - destruct Hin as [-> | Hin]; [congruence |].
    unfold revoke_row at 1.
    destruct (Nat.eqb_spec (Session.id a) (Session.id old)); [congruence |].
    destruct (active a); simpl; rewrite <- (IH Hnd' Hin Hr); reflexivity.
Qed.


End Tables.

(* ------------------------------------------------------------------ *)
(** ** The provider callback without an error *)

Section Callback.

Context {lib : TokenLib}.
Variable env : Env.

(** The session [googleCallback] asks the store to create. *)
Lemma googleCallback_no_error : forall req user w,
  let user_id := option_map User.id user in
  let access := signAccessToken (now w)
                  (AccessPayload.mk user_id (option_map User.email user)) in
  let refresh := signRefreshToken (now w)
                   (RefreshPayload.mk user_id (Some (drawn w))) in
  googleCallback env req None user w =
  match createSession
          (NewSession.mk user_id (Some (drawn w)) (Request.ip req)
             (Some (or_default (Request.user_agent req) "unknown"))
             (Some (hashToken refresh)))
          (with_cursor (cursor w + 16) w) with
  | (Ok _, w') =>
      (Redirected
         [ mkCookie "access_token" access (createCookieOptions env false);
           mkCookie "refresh_token" refresh (createCookieOptions env true) ]
         (APP_URL env ++ "/notebooks"), w')
  | (Throw e, w') => (Rejected e, w')
  end.
Proof.
  intros req user w. cbv zeta. unfold googleCallback, bind.
  rewrite cryptoRandomId_run. unfold signAccess, signRefresh, ret.
  cbn [now with_cursor].
  match goal with
  | |- context [createSession ?f ?w1] =>
      destruct (createSession f w1) as [[row|e] w']
  end; reflexivity.
Qed.

(** X12: when passport reports no error and the identifier drawn is not
    taken, [googleCallback] appends exactly one active session and
    redirects to the application's /notebooks with exactly two cookies,
    access_token and refresh_token, in this order.  The session stores
    the hash of the refresh cookie's value, the request's IP, and a user
    agent that is never absent or empty ("unknown" stands in for a
    missing header); both cookies are HTTP-only, SameSite lax, path "/",
    secure exactly when NODE_ENV is "production", and live 15 minutes
    and 30 days. *)
Theorem googleCallback_success :
  forall req user w,
    existsb (has_jti (Some (drawn w))) (sessions w) = false ->
    exists access refresh row w',
      googleCallback env req None (Some user) w =
        (Redirected
           [ mkCookie "access_token" access
               (mkCookieOptions true "lax" (NODE_ENV env =? "production")
                  900000 "/");
             mkCookie "refresh_token" refresh
               (mkCookieOptions true "lax" (NODE_ENV env =? "production")
                  2592000000 "/") ]
           (APP_URL env ++ "/notebooks"), w') /\
      access = signAccessToken (now w)
                 (AccessPayload.mk (Some (User.id user))
                                   (Some (User.email user))) /\
      refresh = signRefreshToken (now w)
                  (RefreshPayload.mk (Some (User.id user))
                                     (Some (drawn w))) /\
      sessions w' = sessions w ++ [row] /\
      Session.user_id row = Some (User.id user) /\
      Session.jwt_id row = Some (drawn w) /\
      Session.refresh_hash row = Some (hashToken refresh) /\
      Session.ip row = Request.ip req /\
      truthy (Session.user_agent row) = true /\
      (truthy (Request.user_agent req) = true ->
       Session.user_agent row = Request.user_agent req) /\
      (truthy (Request.user_agent req) = false ->
       Session.user_agent row = Some "unknown") /\
      Session.revoked_at row = None.
Proof.
  intros req user w Hfresh.
  pose proof (googleCallback_no_error req (Some user) w) as E.
  cbv zeta in E. cbn [option_map] in E. rewrite E. clear E.
  match goal with
  | |- context [createSession ?f ?w1] =>
      destruct (createSession_cases f w1)
        as [[_ C] | (row & C & _ & Ej & Erh & Eip & Eua & Euid & Erev)]
  end.
  { cbn [NewSession.jwt_id sessions with_cursor] in C. congruence. }
  rewrite C. do 2 eexists. exists row. eexists.
  split; [reflexivity |]. split; [reflexivity |]. split; [reflexivity |].
  split; [reflexivity |].
  cbn [NewSession.jwt_id NewSession.refresh_hash NewSession.ip
       NewSession.user_agent NewSession.user_id] in *.
  repeat (split; [assumption |]).
  rewrite Eua. split; [| split; [| split; [| exact Erev]]].
  - destruct (Request.user_agent req) as [s|]; simpl; [| reflexivity].
    destruct (s =? "") eqn:Es; simpl; [reflexivity | now rewrite Es].
  - destruct (Request.user_agent req) as [s|]; simpl; [| discriminate].
    destruct (s =? ""); [discriminate | reflexivity].
  - destruct (Request.user_agent req) as [s|]; simpl; [| reflexivity].
    destruct (s =? ""); [reflexivity | discriminate].
Qed.

(** X13: [googleCallback] checks [err] only, never [user]: called with
    no error and [user = false], as passport does when the
    authentication failed, it still draws an identifier, writes an
    active session, whose user id is undefined, and redirects to
    /notebooks with an access and a refresh cookie, signed for an
    undefined subject. *)
Theorem googleCallback_without_user :
  forall req w,
    existsb (has_jti (Some (drawn w))) (sessions w) = false ->
    exists o1 o2 row w',
      googleCallback env req None None w =
        (Redirected
           [ mkCookie "access_token"
               (signAccessToken (now w) (AccessPayload.mk None None)) o1;
             mkCookie "refresh_token"
               (signRefreshToken (now w)
                  (RefreshPayload.mk None (Some (drawn w)))) o2 ]
           (APP_URL env ++ "/notebooks"), w') /\
      sessions w' = sessions w ++ [row] /\
      Session.user_id row = None /\
      Session.jwt_id row = Some (drawn w) /\
      Session.revoked_at row = None.
Proof.
  intros req w Hfresh.
  pose proof (googleCallback_no_error req None w) as E.
  cbv zeta in E. cbn [option_map] in E. rewrite E. clear E.
  match goal with
  | |- context [createSession ?f ?w1] =>
      destruct (createSession_cases f w1)
        as [[_ C] | (row & C & _ & Ej & _ & _ & _ & Euid & Erev)]
  end.
  { cbn [NewSession.jwt_id sessions with_cursor] in C. congruence. }
  rewrite C. do 2 eexists. exists row. eexists.
  split; [reflexivity |]. split; [reflexivity |]. auto.
Qed.

(** X14: when the identifier drawn is one the table already has, the
    store's Conflict escapes the async callback of [googleCallback]: no
    cookie is set, no redirect is sent, [next] is not called, and the
    session table is as it was. *)
Theorem googleCallback_conflict :
  forall req user w,
    existsb (has_jti (Some (drawn w))) (sessions w) = true ->
    googleCallback env req None user w
      = (Rejected Conflict, with_cursor (cursor w + 16) w) /\
    sessions (snd (googleCallback env req None user w)) = sessions w.
Proof.
  intros req user w Htaken.
  pose proof (googleCallback_no_error req user w) as E.
  cbv zeta in E. rewrite E. clear E.
  match goal with
  | |- context [createSession ?f ?w1] =>
      destruct (createSession_cases f w1)
        as [[C _] | (row & _ & C & _)]
  end.
  - rewrite C. split; reflexivity.
  - cbn [NewSession.jwt_id sessions with_cursor] in C. congruence.
Qed.

(** X15: the cookies [googleCallback] hands out for [user = false] open
    nothing, provided the verifiers return the payloads that were
    signed.  [auth] answers a request carrying the access cookie with
    401, and [refreshSession] on the refresh cookie finds the session
    active and the hash matching but no user, and throws the TypeError:
    the orphan session is neither revoked nor replaced. *)
Theorem googleCallback_without_user_cookies :
  forall req w o1 o2 access refresh location w' ip user_agent,
    googleCallback env req None None w
      = (Redirected [ mkCookie "access_token" access o1;
                      mkCookie "refresh_token" refresh o2 ] location, w') ->
    verifyAccessToken (now w') access = Ok (AccessPayload.mk None None) ->
    verifyRefreshToken (now w') refresh
      = Ok (RefreshPayload.mk None (Some (drawn w))) ->
    auth (Request.mk (Some access) ip user_agent) w'
      = Responded 401 "Unauthorized" /\
    refreshSession refresh w'
      = (Throw TypeError_null_id, with_cursor (cursor w' + 16) w') /\
    sessions (snd (refreshSession refresh w')) = sessions w'.
Proof.
  intros req w o1 o2 access refresh location w' ip ua H Hva Hvr.
  assert (Hnofind : forall us : list User.t,
             find (fun u => jseq (Some (User.id u)) None) us = None).
  { induction us as [| a us IH]; simpl; auto. }
  assert (Hauth : auth (Request.mk (Some access) ip ua) w'
                  = Responded 401 "Unauthorized").
  { destruct (String.eqb_spec access "") as [-> | Hne]; [reflexivity |].
    rewrite (auth_with_token (Request.mk (Some access) ip ua) w' access
               eq_refl Hne), Hva.
    cbn [AccessPayload.sub]. now rewrite Hnofind. }
  split; [exact Hauth |]. clear Hauth Hva.
  pose proof (googleCallback_no_error req None w) as E.
  cbv zeta in E. cbn [option_map] in E. rewrite E in H. clear E.
  match type of H with
  | context [createSession ?f ?w1] =>
      destruct (createSession_cases f w1)
        as [[C _] | (row & C & Hfresh & Ej & Erh & _ & _ & _ & Erev)];
        rewrite C in H; [discriminate H |]
  end.
  inversion H; subst. clear H C.
  cbn [NewSession.jwt_id NewSession.refresh_hash sessions with_cursor]
    in Hfresh, Ej, Erh.
  match goal with
  | |- context [refreshSession ?tok ?W] =>
      assert (Hf : findSessionByJti
                     (RefreshPayload.jti
                        (RefreshPayload.mk None (Some (drawn w)))) W
                   = (Ok (Some row), W))
  end.
  { rewrite findSessionByJti_reads. cbn [sessions with_sessions].
    rewrite (find_fresh_row _ _ _ Hfresh); [reflexivity |].
    unfold has_jti. now apply jseq_eq. }
  pose proof (refreshSession_checked _ _ _ _ Hvr Hf Erev Erh) as Hc.
  cbv zeta in Hc. cbn [RefreshPayload.sub] in Hc.
  rewrite Hnofind in Hc. rewrite Hc. split; reflexivity.
Qed.

End Callback.

(* ------------------------------------------------------------------ *)
(** ** More runs on the sample world *)

Section MoreRuns.

#[local] Existing Instance Sample.lib.

Import Sample.

(** Alice's refresh when the tape repeats the identifier of her
    session. *)
Lemma refreshSession_failures_witness :
  refreshSession refresh0 (with_cursor 0 w1)
    = (Throw Conflict,
       with_sessions [Session.revoke_at 0 session0] (with_cursor 16 w1)) /\
  exists payload old,
    findSessionByJti (RefreshPayload.jti payload) (with_cursor 0 w1)
      = (Ok (Some old), with_cursor 0 w1) /\
    Session.revoked_at old = None /\
    findSessionByJti (RefreshPayload.jti payload)
      (with_sessions [Session.revoke_at 0 session0] (with_cursor 16 w1))
      = (Ok (Some (Session.revoke_at 0 old)),
         with_sessions [Session.revoke_at 0 session0] (with_cursor 16 w1)).
Proof.
  assert (H : refreshSession refresh0 (with_cursor 0 w1)
              = (Throw Conflict,
                 with_sessions [Session.revoke_at 0 session0]
                   (with_cursor 16 w1)))
    by (vm_compute; reflexivity).
  split; [exact H |].
  destruct (refreshSession_failures _ _ _ _ H)
    as [[Hv _] | [[He _] | [[He _] | [[He _] | [_ Hc]]]]];
    try discriminate He.
  - assert (Hv0 : verifyRefreshToken (now (with_cursor 0 w1)) refresh0
                  = Ok payload0) by (vm_compute; reflexivity).
    rewrite Hv0 in Hv. discriminate Hv.
  - destruct Hc as (payload & old & _ & Hf & Hr & _ & Hf').
    exists payload, old. auto.
Defined.

(** Alice refreshes right after her login. *)
Lemma login_then_refresh_witness :
  loginWithPassword "a@x.com" "correct" meta w0 = (Ok r0, w1) /\
  exists r2 w2',
    refreshSession (AuthResult.refresh r0) w1 = (Ok r2, w2') /\
    User.id (AuthResult.user r2) = "user:1".
Proof.
  assert (H : loginWithPassword "a@x.com" "correct" meta w0 = (Ok r0, w1))
    by (vm_compute; reflexivity).
  split; [exact H |].
  destruct (login_then_refresh _ _ _ _ _ _ H)
    as (r2 & w2' & old & new & E & Eid & _);
    [vm_compute; reflexivity | vm_compute; reflexivity |].
  exists r2, w2'. split; [exact E | exact Eid].
Defined.

(** Alice refreshes twice in a row. *)
Lemma refresh_then_refresh_witness :
  refreshSession refresh0 w1 = (Ok r1, w2) /\
  exists r2 w3',
    refreshSession (AuthResult.refresh r1) w2 = (Ok r2, w3') /\
    AuthResult.user r2 = alice.
Proof.
  assert (H : refreshSession refresh0 w1 = (Ok r1, w2))
    by (vm_compute; reflexivity).
  split; [exact H |].
  destruct (refresh_then_refresh _ _ _ _ H)
    as (r2 & w3' & payload & a & b & c & E & Eu & _);
    [vm_compute; reflexivity | vm_compute; reflexivity |].
  exists r2, w3'. split; [exact E | exact Eu].
Defined.

(** Alice's access token at the gate. *)
Lemma login_then_auth_witness :
  loginWithPassword "a@x.com" "correct" meta w0 = (Ok r0, w1) /\
  exists u,
    auth (Request.mk (Some (AuthResult.access r0)) None None) w1
      = Attached u /\
    User.id u = "user:1".
Proof.
  assert (H : loginWithPassword "a@x.com" "correct" meta w0 = (Ok r0, w1))
    by (vm_compute; reflexivity).
  split; [exact H |].
  destruct (login_then_auth _ _ _ _ _ _ None None H)
    as (u & E & Eid & _);
    [discriminate | vm_compute; reflexivity |].
  exists u. split; [exact E | exact Eid].
Defined.

(** The sample tape repeats after 256 bytes. *)
Lemma cryptoRandomId_injective_witness :
  fst (cryptoRandomId w0) = fst (cryptoRandomId (with_cursor 256 w0)) /\
  map (entropy w0) (seq 0 16) = map (entropy w0) (seq 256 16).
Proof.
  assert (H : fst (cryptoRandomId w0)
              = fst (cryptoRandomId (with_cursor 256 w0)))
    by (vm_compute; reflexivity).
  split; [exact H |].
  exact (cryptoRandomId_injective w0 (with_cursor 256 w0) H).
Defined.

(** A history from the empty table. *)
Lemma history_well_formed_witness :
  well_formed (sessions w0) /\
  well_formed
    (sessions
       (history env
          [Login "a@x.com" "correct" meta; Refresh refresh0;
           GoogleCallback (Request.mk None None None) None (Some bob);
           Revoke 2; Refresh refresh0] w0)).
Proof.
  assert (H : well_formed (sessions w0)) by (split; constructor).
  split; [exact H |].
  apply (history_well_formed env _ w0 H).
Defined.


(** Bob comes back from the provider without a user-agent header. *)
Lemma googleCallback_success_witness :
  existsb (has_jti (Some (drawn w1))) (sessions w1) = false /\
  exists access refresh row w',
    fst (googleCallback env (Request.mk None (Some "10.0.0.9") None) None
           (Some bob) w1)
      = Redirected
          [ mkCookie "access_token" access
              (mkCookieOptions true "lax" true 900000 "/");
            mkCookie "refresh_token" refresh
              (mkCookieOptions true "lax" true 2592000000 "/") ]
          "https://app.example/notebooks" /\
    sessions w' = sessions w1 ++ [row] /\
    Session.refresh_hash row = Some (hashToken refresh) /\
    Session.user_agent row = Some "unknown".
Proof.
  assert (H : existsb (has_jti (Some (drawn w1))) (sessions w1) = false)
    by (vm_compute; reflexivity).
  split; [exact H |].
  destruct (googleCallback_success env (Request.mk None (Some "10.0.0.9") None)
              bob w1 H)
    as (access & refresh & row & w' & E & _ & _ & Hs & _ & _ & Hh & _ & _
        & _ & Hua & _).
  exists access, refresh, row, w'. rewrite E.
  refine (conj eq_refl (conj Hs (conj Hh _))).
  apply Hua. reflexivity.
Defined.

(** Passport reports a failed authentication. *)
Lemma googleCallback_without_user_witness :
  existsb (has_jti (Some (drawn w1))) (sessions w1) = false /\
  exists row w',
    sessions w' = sessions w1 ++ [row] /\
    snd (googleCallback env (Request.mk None None None) None None w1) = w' /\
    Session.user_id row = None.
Proof.
  assert (H : existsb (has_jti (Some (drawn w1))) (sessions w1) = false)
    by (vm_compute; reflexivity).
  split; [exact H |].
  destruct (googleCallback_without_user env (Request.mk None None None) w1 H)
    as (o1 & o2 & row & w' & E & Hs & Hu & _).
  exists row, w'. rewrite E. exact (conj Hs (conj eq_refl Hu)).
Defined.

(** The tape repeats the identifier of Alice's session. *)
Lemma googleCallback_conflict_witness :
  existsb (has_jti (Some (drawn (with_cursor 0 w1))))
    (sessions (with_cursor 0 w1)) = true /\
  googleCallback env (Request.mk None None None) None (Some bob)
    (with_cursor 0 w1)
    = (Rejected Conflict, with_cursor (cursor (with_cursor 0 w1) + 16)
                            (with_cursor 0 w1)).
Proof.
  assert (H : existsb (has_jti (Some (drawn (with_cursor 0 w1))))
                (sessions (with_cursor 0 w1)) = true)
    by (vm_compute; reflexivity).
  split; [exact H |].
  exact (proj1 (googleCallback_conflict env (Request.mk None None None)
                  (Some bob) (with_cursor 0 w1) H)).
Defined.

(** The cookies of a failed authentication, presented. *)
Lemma googleCallback_without_user_cookies_witness :
  let out := googleCallback env (Request.mk None None None) None None w1 in
  fst out
    = Redirected
        [ mkCookie "access_token" "a|||900000" (createCookieOptions env false);
          mkCookie "refresh_token"
            "r||101112131415161718191a1b1c1d1e1f|2592000000"
            (createCookieOptions env true) ]
        "https://app.example/notebooks" /\
  auth (Request.mk (Some "a|||900000") None None) (snd out)
    = Responded 401 "Unauthorized" /\
  fst (refreshSession "r||101112131415161718191a1b1c1d1e1f|2592000000"
         (snd out)) = Throw TypeError_null_id.
Proof.
  intro out.
  assert (H : out
              = (Redirected
                   [ mkCookie "access_token" "a|||900000"
                       (createCookieOptions env false);
                     mkCookie "refresh_token"
                       "r||101112131415161718191a1b1c1d1e1f|2592000000"
                       (createCookieOptions env true) ]
                   "https://app.example/notebooks", snd out))
    by (vm_compute; reflexivity).
  destruct (googleCallback_without_user_cookies env _ _ _ _ _ _ _ _ None None H)
    as (Ha & Hr & _);
    [vm_compute; reflexivity | vm_compute; reflexivity |].
  split; [now rewrite H |]. split; [exact Ha | now rewrite Hr].
Defined.

End MoreRuns.

(* ------------------------------------------------------------------ *)
(** ** [initSurreal]: sign-in attempts, retries *)

Module SurrealFacts.
Import Surreal.

Lemma signin_loop_spec : forall c attempts last,
  exists tried rest,
    attempts = tried ++ rest /\
    Forall (rejected c) tried /\
    match rest with
    | [] => signin_loop c attempts last
            = (map Signin tried, false, last_rejection c tried last)
    | p :: _ => signin c p = None /\
                signin_loop c attempts last
                = (map Signin tried ++ [Signin p], true,
                   last_rejection c tried last)
    end.
Proof.
  intros c attempts. induction attempts as [| p attempts IH]; intro last.
  - exists (@nil Payload), (@nil Payload). repeat split; constructor.
  - simpl. destruct (signin c p) as [e|] eqn:Es.
    + destruct (IH e) as (tried & rest & -> & Hrej & Hrun).
      exists (p :: tried), rest. split; [reflexivity |]. split.
      * constructor; [unfold rejected; congruence | exact Hrej].
      * simpl. rewrite Es. destruct rest as [| q rest].
        -- now rewrite Hrun.
        -- destruct Hrun as [Hq Hrun]. now rewrite Hrun.
    + exists (@nil Payload), (p :: attempts).
      repeat split; [constructor | exact Es].
Qed.

Lemma last_rejection_all : forall c tried last p e,
  Forall (rejected c) (tried ++ [p]) ->
  signin c p = Some e ->
  last_rejection c (tried ++ [p]) last = e.
Proof.
  intros c tried. induction tried as [| q tried IH]; intros last p e Hr Hp.
  - simpl. now rewrite Hp.
  - simpl. inversion Hr; subst. now apply IH.
Qed.

(** Every way one run can go. *)
Lemma initSurreal_cases : forall env ws c,
  let polyfill := if ws : bool then @nil Effect else [SetWebSocket] in
  let url := SURREAL_URL env in
  (exists e, connect c url = Some e /\
             initSurreal env ws c
             = (polyfill ++ Connect url :: retry e, Retrying)) \/
  (connect c url = None /\
   exists tried rest,
     signinAttempts env = tried ++ rest /\ Forall (rejected c) tried /\
     match rest with
     | [] => exists e, signin c (fifth env) = Some e /\
                       initSurreal env ws c
                       = (polyfill ++ Connect url :: map Signin tried
                          ++ retry (or_else e (Object signin_failed)),
                          Retrying)
     | p :: _ =>
         signin c p = None /\
         match use c (target env) with
         | Some e => initSurreal env ws c
                     = (polyfill ++ Connect url
                        :: (map Signin tried ++ [Signin p])
                        ++ Use (target env) :: retry e, Retrying)
         | None => initSurreal env ws c
                   = (polyfill ++ Connect url
                      :: (map Signin tried ++ [Signin p])
                      ++ [Use (target env)], Ready)
         end
     end).
Proof.
  intros env ws c polyfill url. unfold initSurreal. fold polyfill. fold url.
  destruct (connect c url) as [e|]; [left; eauto | right].
  split; [reflexivity |].
  destruct (signin_loop_spec c (signinAttempts env) Null)
    as (tried & rest & Happ & Hrej & Hrun).
  exists tried, rest. split; [exact Happ |]. split; [exact Hrej |].
  destruct rest as [| p rest].
  - rewrite Hrun. cbn [negb]. rewrite app_nil_r in Happ.
    assert (Hlast : exists e, signin c (fifth env) = Some e /\
                              last_rejection c tried Null = e).
    { assert (Hf : rejected c (fifth env)).
      { rewrite <- Happ in Hrej. unfold signinAttempts in Hrej.
        repeat match goal with
               | H : Forall _ (_ :: _) |- _ => inversion H; subst; clear H
               end. assumption. }
      unfold rejected in Hf.
      destruct (signin c (fifth env)) as [e|] eqn:Ef; [| congruence].
      exists e. split; [reflexivity |].
      rewrite <- Happ. rewrite <- Happ in Hrej.
      exact (last_rejection_all c (firstn 4 (signinAttempts env)) Null
               (fifth env) e Hrej Ef). }
    destruct Hlast as (e & Ef & ->). eauto.
  - destruct Hrun as [Hp Hrun]. rewrite Hrun. cbn [negb].
    split; [exact Hp |]. fold (target env).
    destruct (use c (target env)); reflexivity.
Qed.

(** X16: after a successful connect, [initSurreal] tries the five
    sign-in payloads in the order written and stops at the first the
    client accepts: the sign-in calls made are the rejected payloads
    before it and then that one, or all five when none is accepted;
    [use] is called exactly when one was accepted, after the sign-in
    calls.  After a failed connect neither is called. *)
Theorem initSurreal_signin_order :
  forall env ws c,
    (connect c (SURREAL_URL env) <> None ->
     filter is_signin (fst (initSurreal env ws c)) = [] /\
     ~ In (Use (target env)) (fst (initSurreal env ws c))) /\
    (connect c (SURREAL_URL env) = None ->
     exists tried rest,
       signinAttempts env = tried ++ rest /\
       Forall (rejected c) tried /\
       (forall p, hd_error rest = Some p -> signin c p = None) /\
       filter is_signin (fst (initSurreal env ws c))
         = map Signin (tried ++ firstn 1 rest) /\
       (In (Use (target env)) (fst (initSurreal env ws c)) <-> rest <> [])).
Proof.
  intros env ws c.
  assert (Hsig : forall l, filter is_signin (map Signin l) = map Signin l).
  { induction l; simpl; congruence. }
  assert (Hnouse : forall l, ~ In (Use (target env)) (map Signin l)).
  { induction l; simpl; [tauto |]. intros [H | H]; [discriminate H | tauto]. }
  destruct (initSurreal_cases env ws c)
    as [(e & Hc & E) | (Hc & tried & rest & Happ & Hrej & Hrun)]; split;
    try (intro H; congruence).
  - intros _. rewrite E. cbn [fst]. destruct ws; simpl; split; try reflexivity;
      intros H; repeat (destruct H as [H | H]; [discriminate H |]);
      exact H.
  - intros _. exists tried, rest. split; [exact Happ |].
    split; [exact Hrej |].
    destruct rest as [| p rest].
    + destruct Hrun as (e & _ & E). rewrite E. cbn [fst].
      split; [intros p Hp; discriminate Hp |]. split.
      * rewrite filter_app. destruct ws; simpl;
          rewrite filter_app, Hsig; simpl; now rewrite !app_nil_r.
      * split; [| congruence]. intro Hin. exfalso.
        apply in_app_or in Hin as [Hin | Hin].
        -- destruct ws; simpl in Hin; [tauto |].
           destruct Hin as [Hin | []]. discriminate Hin.
        -- destruct Hin as [Hin | Hin]; [discriminate Hin |].
           apply in_app_or in Hin as [Hin | Hin];
             [now apply Hnouse in Hin |].
           simpl in Hin. destruct Hin as [Hin | [Hin | []]]; discriminate Hin.
    + destruct Hrun as [Hp Hrun].
      split; [intros q Hq; inversion Hq; subst; exact Hp |].
      assert (Hshape : exists tail,
                 fst (initSurreal env ws c)
                 = (if ws then [] else [SetWebSocket])
                   ++ Connect (SURREAL_URL env)
                   :: map Signin (tried ++ [p]) ++ Use (target env) :: tail /\
                 filter is_signin tail = []).
      { destruct (use c (target env)) as [e|]; rewrite Hrun; cbn [fst];
          rewrite map_app; simpl; eexists; split; reflexivity. }
      destruct Hshape as (tail & -> & Htail). split.
      * rewrite filter_app. simpl. rewrite filter_app, Hsig. simpl.
        rewrite Htail, app_nil_r. destruct ws; reflexivity.
      * split; [intros _; discriminate |]. intros _.
        apply in_or_app. right. right. apply in_or_app. right. now left.
Qed.

(** X17: a run of [initSurreal] ends ready exactly when the connect
    resolves, the client accepts one of the five sign-in payloads and
    [use] resolves.  A ready run logs nothing and sets no timer; every
    other run ends by logging the error and setting one timer, of
    5000 ms, for the next run.  No run throws to its caller. *)
Theorem initSurreal_ready_iff :
  forall env ws c,
    (snd (initSurreal env ws c) = Ready <-> lets_in env c) /\
    (snd (initSurreal env ws c) = Ready ->
     filter is_timeout (fst (initSurreal env ws c)) = [] /\
     forall m e, ~ In (ConsoleError m e) (fst (initSurreal env ws c))) /\
    (snd (initSurreal env ws c) = Retrying ->
     exists before e,
       fst (initSurreal env ws c) = before ++ retry e /\
       filter is_timeout before = []).
Proof.
  intros env ws c.
  assert (Hsig : forall l, filter is_timeout (map Signin l) = []).
  { induction l; simpl; congruence. }
  assert (Hnolog : forall l m e, ~ In (ConsoleError m e) (map Signin l)).
  { induction l; simpl; [tauto |].
    intros m e [H | H]; [discriminate H | now apply IHl in H]. }
  destruct (initSurreal_cases env ws c)
    as [(e & Hc & E) | (Hc & tried & rest & Happ & Hrej & Hrun)].
  - rewrite E. cbn [fst snd]. split; [| split]; try discriminate.
    + split; [discriminate |]. intros (Hc' & _). congruence.
    + intros _. exists ((if ws then [] else [SetWebSocket])
                        ++ [Connect (SURREAL_URL env)]), e.
      rewrite <- app_assoc. split; [reflexivity |]. destruct ws; reflexivity.
  - destruct rest as [| p rest].
    + destruct Hrun as (e & Hfifth & E). rewrite E. cbn [fst snd].
      split; [| split]; try discriminate.
      * split; [discriminate |]. intros (_ & (q & Hin & Hq) & _).
        rewrite app_nil_r in Happ. rewrite Happ in Hin.
        rewrite Forall_forall in Hrej. now apply Hrej in Hin.
      * intros _. exists ((if ws then [] else [SetWebSocket])
                          ++ Connect (SURREAL_URL env) :: map Signin tried),
                         (or_else e (Object signin_failed)).
        rewrite <- app_assoc. split; [reflexivity |].
        rewrite filter_app. simpl. rewrite Hsig. destruct ws; reflexivity.
    + destruct Hrun as [Hp Hrun].
      assert (Hin : In p (signinAttempts env)).
      { rewrite Happ. apply in_or_app. right. now left. }
      destruct (use c (target env)) as [e|] eqn:Hu; rewrite Hrun;
        cbn [fst snd]; (split; [| split]); try discriminate.
      * split; [discriminate |]. intros (_ & _ & Hu').
        unfold target in Hu. congruence.
      * intros _. exists ((if ws then [] else [SetWebSocket])
                          ++ Connect (SURREAL_URL env)
                          :: (map Signin tried ++ [Signin p])
                          ++ [Use (target env)]), e.
        split.
        -- rewrite <- !app_assoc. simpl. rewrite <- !app_assoc. reflexivity.
        -- rewrite filter_app. simpl. rewrite !filter_app, Hsig.
           destruct ws; reflexivity.
      * split; [intros _ | reflexivity].
        split; [exact Hc |]. split; [eauto | exact Hu].
      * intros _. split.
        -- rewrite filter_app. simpl. rewrite !filter_app, Hsig.
           destruct ws; reflexivity.
        -- intros m e Hin'. apply in_app_or in Hin' as [Hin' | Hin'].
           ++ destruct ws; simpl in Hin'; [tauto |].
              destruct Hin' as [Hin' | []]. discriminate Hin'.
           ++ destruct Hin' as [Hin' | Hin']; [discriminate Hin' |].
              apply in_app_or in Hin' as [Hin' | Hin'].
              ** apply in_app_or in Hin' as [Hin' | Hin'];
                   [now apply Hnolog in Hin' |].
                 destruct Hin' as [Hin' | []]. discriminate Hin'.
              ** destruct Hin' as [Hin' | []]. discriminate Hin'.
Qed.

(** X18: the value a retrying run logs.  After a rejected connect it is
    the value the connect rejected with, and after a rejected [use] the
    value [use] rejected with, whatever they are.  When all five sign-in
    payloads were rejected it is decided by the rejection of the fifth,
    the last one tried: that value itself when it is truthy, and the
    fallback error "SurrealDB signin failed" when it is falsy
    ([undefined], [null], [false], [0], [NaN] or the empty string).  The
    earlier four rejections never reach the log. *)
Theorem initSurreal_logged_error :
  forall env ws c before v,
    fst (initSurreal env ws c) = before ++ retry v ->
    connect c (SURREAL_URL env) = Some v \/
    (connect c (SURREAL_URL env) = None /\
     Forall (rejected c) (signinAttempts env) /\
     exists r,
       signin c (fifth env) = Some r /\
       (truthy_value r = true -> v = r) /\
       (truthy_value r = false -> v = Object signin_failed)) \/
    (connect c (SURREAL_URL env) = None /\ use c (target env) = Some v).
Proof.
  intros env ws c before e H.
  assert (Hlast : forall (l1 l2 : list Effect) e1 e2,
             l1 ++ retry e1 = l2 ++ retry e2 -> e1 = e2).
  { intros l1 l2 e1 e2 Heq. unfold retry in Heq.
    change [ConsoleError retry_message e1; SetTimeout 5000]
      with ([ConsoleError retry_message e1] ++ [SetTimeout 5000]) in Heq.
    change [ConsoleError retry_message e2; SetTimeout 5000]
      with ([ConsoleError retry_message e2] ++ [SetTimeout 5000]) in Heq.
    rewrite !app_assoc in Heq.
    apply app_inj_tail in Heq as [Heq _].
    apply app_inj_tail in Heq as [_ Heq]. now inversion Heq. }
  destruct (initSurreal_cases env ws c)
    as [(e' & Hc & E) | (Hc & tried & rest & Happ & Hrej & Hrun)].
  - rewrite E in H. cbn [fst] in H. left.
    change (Connect (SURREAL_URL env) :: retry e')
      with ([Connect (SURREAL_URL env)] ++ retry e') in H.
    rewrite app_assoc in H. apply Hlast in H. congruence.
  - right. destruct rest as [| p rest].
    + destruct Hrun as (r & Hfifth & E). rewrite E in H. cbn [fst] in H.
      left. rewrite app_nil_r in Happ. rewrite Happ.
      split; [exact Hc |]. split; [exact Hrej |].
      rewrite app_comm_cons, app_assoc in H. apply Hlast in H.
      exists r. split; [exact Hfifth |]. subst e. unfold or_else.
      destruct (truthy_value r); split; congruence.
    + destruct Hrun as [Hp Hrun]. right. split; [exact Hc |].
      destruct (use c (target env)) as [e'|]; rewrite Hrun in H;
        cbn [fst] in H.
      * change (Use (target env) :: retry e')
          with ([Use (target env)] ++ retry e') in H.
        rewrite app_comm_cons, !app_assoc in H. apply Hlast in H. congruence.
      * exfalso. unfold retry in H.
        rewrite app_comm_cons, app_assoc in H.
        change [ConsoleError retry_message e; SetTimeout 5000]
          with ([ConsoleError retry_message e] ++ [SetTimeout 5000]) in H.
        rewrite (app_assoc before) in H.
        apply app_inj_tail in H as [_ H]. discriminate H.
Qed.

Lemma initSurreal_outcome : forall env ws c,
  (lets_in env c -> snd (initSurreal env ws c) = Ready /\
                    filter is_timeout (fst (initSurreal env ws c)) = []) /\
  (~ lets_in env c ->
   snd (initSurreal env ws c) = Retrying /\
   filter is_timeout (fst (initSurreal env ws c)) = [SetTimeout 5000]).
Proof.
  intros env ws c.
  assert (Hsig : forall l, filter is_timeout (map Signin l) = []).
  { induction l; simpl; congruence. }
  destruct (initSurreal_cases env ws c)
    as [(e & Hc & E) | (Hc & tried & rest & Happ & Hrej & Hrun)].
  - rewrite E. cbn [fst snd]. split.
    + intros (Hc' & _). congruence.
    + intros _. split; [reflexivity |]. destruct ws; reflexivity.
  - destruct rest as [| p rest].
    + destruct Hrun as (e & _ & E). rewrite E. cbn [fst snd]. split.
      * intros (_ & (q & Hin & Hq) & _).
        rewrite app_nil_r in Happ. rewrite Happ in Hin.
        rewrite Forall_forall in Hrej. now apply Hrej in Hin.
      * intros _. split; [reflexivity |].
        rewrite filter_app. simpl. rewrite filter_app, Hsig.
        destruct ws; reflexivity.
    + destruct Hrun as [Hp Hrun].
      assert (Hin : In p (signinAttempts env)).
      { rewrite Happ. apply in_or_app. right. now left. }
      destruct (use c (target env)) as [e|] eqn:Hu; rewrite Hrun;
        cbn [fst snd]; split.
      * intros (_ & _ & Hu'). unfold target in Hu. congruence.
      * intros _. split; [reflexivity |].
        rewrite filter_app. simpl. rewrite !filter_app, Hsig.
        destruct ws; reflexivity.
      * intros _. split; [reflexivity |].
        rewrite filter_app. simpl. rewrite !filter_app, Hsig.
        destruct ws; reflexivity.
      * intro Hn. exfalso. apply Hn. split; [exact Hc |].
        split; [eauto | exact Hu].
Qed.

(** X19: the runs the timer chains go on until the client lets one in:
    when run [k] is the first the client lets in, following [k + 1] runs
    or more ends ready, after exactly [k] timers, each of 5000 ms; there
    is no bound on the number of retries. *)
Theorem initSurreal_eventually_ready :
  forall env clients k fuel ws,
    (forall j, (j < k)%nat -> ~ lets_in env (clients j)) ->
    lets_in env (clients k) ->
    (k < fuel)%nat ->
    snd (runs env clients fuel 0 ws) = Ready /\
    filter is_timeout (fst (runs env clients fuel 0 ws))
      = repeat (SetTimeout 5000) k.
Proof.
  intros env clients k fuel ws Hbefore Hk Hfuel.
  assert (Hgen : forall n fuel i ws,
             (forall j, (j < n)%nat -> ~ lets_in env (clients (i + j)%nat)) ->
             lets_in env (clients (i + n)%nat) ->
             (n < fuel)%nat ->
             snd (runs env clients fuel i ws) = Ready /\
             filter is_timeout (fst (runs env clients fuel i ws))
               = repeat (SetTimeout 5000) n).
  { clear. induction n as [| n IH]; intros fuel i ws Hb Hn Hf;
      (destruct fuel as [| fuel]; [lia |]); cbn [runs].
    - rewrite Nat.add_0_r in Hn.
      destruct (proj1 (initSurreal_outcome env ws (clients i)) Hn)
        as [Ho Ht].
      destruct (initSurreal env ws (clients i)) as [effects o].
      cbn [snd fst] in *. subst o. auto.
    - assert (Hi : ~ lets_in env (clients i)).
      { specialize (Hb 0%nat). rewrite Nat.add_0_r in Hb. apply Hb. lia. }
      destruct (proj2 (initSurreal_outcome env ws (clients i)) Hi)
        as [Ho Ht].
      destruct (initSurreal env ws (clients i)) as [effects o].
      cbn [snd fst] in *. subst o.
      destruct (IH fuel (S i) true) as [Hr Hc].
      + intros j Hj. replace (S i + j)%nat with (i + S j)%nat by lia.
        apply Hb. lia.
      + replace (S i + n)%nat with (i + S n)%nat by lia. exact Hn.
      + lia.
      + destruct (runs env clients fuel (S i) true) as [more o].
        cbn [snd fst] in *. split; [exact Hr |].
        rewrite filter_app, Ht, Hc. reflexivity. }
  apply Hgen; auto.
Qed.

End SurrealFacts.

(* ------------------------------------------------------------------ *)
(** ** The auth store: what its actions return and leave behind *)

Module AuthStoreFacts.
Import AuthStore.

Lemma ok_spec : forall status, ok status = true <-> (200 <= status <= 299)%Z.
Proof. intro status. unfold ok. lia. Qed.

Lemma accepted_dec : forall fetched,
  (accepted fetched /\ exists status body,
      fetched = Response status body /\ ok status = true) \/
  (~ accepted fetched /\
   ((exists status body, fetched = Response status body /\ ok status = false)
    \/ exists t, fetched = Threw t)).
Proof.
  intros [status body | t].
  - destruct (ok status) eqn:E.
    + left. split; [| eauto]. exists status, body. now rewrite <- ok_spec.
    + right. split; [| eauto].
      intros (s & b & Heq & Hr). inversion Heq; subst.
      apply ok_spec in Hr. congruence.
  - right. split; [| eauto]. intros (s & b & Heq & _). discriminate Heq.
Qed.

(** X20: whatever the server answers or the network does, the value
    [login] returns is the [isAuthenticated] it leaves in the store, and
    it is true exactly for a response with a status from 200 to 299.
    [isLoading] ends false in every case; a success clears the error and
    stamps [lastAuthCheck] with the current time, a failure sets an
    error message and leaves [lastAuthCheck] as it was. *)
Theorem login_returns_state :
  forall email password now fetched st,
    let st' := fst (login email password now fetched st) in
    let result := snd (login email password now fetched st) in
    result = isAuthenticated st' /\
    (result = true <-> accepted fetched) /\
    isLoading st' = false /\
    (result = true -> error st' = None /\ lastAuthCheck st' = Some now) /\
    (result = false ->
     error st' <> None /\ lastAuthCheck st' = lastAuthCheck st) /\
    isCheckingAuth st' = isCheckingAuth st /\
    authRequired st' = authRequired st.
Proof.
  intros email password now fetched st. cbv zeta.
  destruct (accepted_dec fetched)
    as [[Ha (status & body & -> & Hok)]
       | [Hn [(status & body & -> & Hok) | (t & ->)]]];
    unfold login; try rewrite Hok; cbn [fst snd isAuthenticated isLoading
      error lastAuthCheck isCheckingAuth authRequired];
    repeat split; auto; try discriminate; try tauto;
    intro H; try discriminate H; try contradiction.
Qed.

(** X21: [checkAuth] returns the [isAuthenticated] it leaves in the
    store.  It sends no request, and leaves the store as it is, exactly
    when a check is already in flight or the store is authenticated with
    a check less than 30000 ms old; otherwise it asks the server, ends
    with [isCheckingAuth] false, is authenticated exactly for a response
    with a status from 200 to 299, and stamps [lastAuthCheck] on success
    and clears it on failure. *)
Theorem checkAuth_returns_state :
  forall now fetched st,
    let st' := fst (fst (checkAuth now fetched st)) in
    let result := snd (fst (checkAuth now fetched st)) in
    let sent := snd (checkAuth now fetched st) in
    result = isAuthenticated st' /\
    (sent = false <->
     isCheckingAuth st = true \/ checked_recently now st = true) /\
    (sent = false -> st' = st) /\
    (sent = true ->
     isCheckingAuth st' = false /\
     (result = true <-> accepted fetched) /\
     lastAuthCheck st' = (if result then Some now else None)).
Proof.
  intros now fetched st. cbv zeta. unfold checkAuth.
  destruct (isCheckingAuth st) eqn:Hc.
  { cbn [fst snd]. repeat split; auto; discriminate. }
  destruct (checked_recently now st) eqn:Hr.
  { cbn [fst snd]. repeat split; auto; try discriminate.
    unfold checked_recently in Hr. apply andb_true_iff in Hr as [Hr _].
    now rewrite Hr. }
  destruct (accepted_dec fetched)
    as [[Ha (status & body & -> & Hok)]
       | [Hn [(status & body & -> & Hok) | (t & ->)]]];
    try rewrite Hok; cbn [fst snd isAuthenticated isCheckingAuth
                          lastAuthCheck];
    repeat split; auto; try discriminate;
    try (intros [H | H]; discriminate H);
    intro H; try discriminate H; try contradiction.
Qed.

(** X22: [logout] is local to the store: it sends no request, and
    clears [isAuthenticated] and the error only.  The next [checkAuth]
    therefore cannot answer from its cache; it asks the server, and when
    the server still accepts the cookies the store is authenticated
    again. *)
Theorem logout_then_checkAuth :
  forall now status body st,
    isCheckingAuth st = false ->
    ok status = true ->
    isAuthenticated (logout st) = false /\
    lastAuthCheck (logout st) = lastAuthCheck st /\
    checkAuth now (Response status body) (logout st)
      = (mkState true (isLoading st) None (Some now) false (hasHydrated st)
           (authRequired st), true, true).
Proof.
  intros now status body st Hc Hok. split; [reflexivity |].
  split; [reflexivity |]. unfold checkAuth, checked_recently.
  cbn [logout isCheckingAuth isAuthenticated andb isLoading error
       hasHydrated authRequired].
  now rewrite Hc, Hok.
Qed.

(** X23: [register] never logs the user in: whatever the outcome it
    leaves [isAuthenticated] and [lastAuthCheck] as they were and
    [isLoading] false.  It returns true exactly for a response with a
    status from 200 to 299, and then clears the error; for any other
    response the error shown is the backend's [error] field when it is
    truthy, else its [message] field when that is truthy, else a text
    chosen by the status. *)
Theorem register_never_authenticates :
  forall name email password fetched st,
    let st' := fst (register name email password fetched st) in
    let result := snd (register name email password fetched st) in
    isAuthenticated st' = isAuthenticated st /\
    lastAuthCheck st' = lastAuthCheck st /\
    isLoading st' = false /\
    (result = true <-> accepted fetched) /\
    (result = true -> error st' = None) /\
    (forall status b,
        fetched = Response status (Some b) -> ok status = false ->
        (truthy (body_error b) = true -> error st' = body_error b) /\
        (truthy (body_error b) = false -> truthy (body_message b) = true ->
         error st' = body_message b)).
Proof.
  intros name email password fetched st. cbv zeta.
  destruct (accepted_dec fetched)
    as [[Ha (status & body & -> & Hok)]
       | [Hn [(status & body & -> & Hok) | (t & ->)]]];
    unfold register; try rewrite Hok;
    cbn [fst snd isAuthenticated isLoading error lastAuthCheck];
    (split; [reflexivity |]); (split; [reflexivity |]);
    (split; [reflexivity |]).
  - split; [tauto |]. split; [reflexivity |].
    intros s b Heq Hs. inversion Heq; subst. congruence.
  - split; [split; [discriminate | contradiction] |].
    split; [discriminate |].
    intros s b Heq _. inversion Heq; subst. unfold backendMessage. split.
    + intro Ht. rewrite Ht. destruct (body_error b) as [x|];
        [| discriminate Ht].
      simpl in *. apply negb_true_iff in Ht. now rewrite Ht.
    + intros Hf Ht. rewrite Hf. destruct (body_message b) as [x|];
        [| discriminate Ht].
      simpl in *. apply negb_true_iff in Ht. now rewrite Ht.
  - split; [split; [discriminate | contradiction] |].
    split; [discriminate |]. intros s b Heq. discriminate Heq.
Qed.

(** X24: [checkAuthRequired] fails closed: whether the health check is
    answered, refused or unreachable, the store ends with [authRequired]
    true, never false or unknown.  It returns true exactly for a
    response with a status from 200 to 299 and throws in every other
    case; it never returns false, and never changes
    [isAuthenticated]. *)
Theorem checkAuthRequired_fails_closed :
  forall fetched st,
    let st' := fst (checkAuthRequired fetched st) in
    let result := snd (checkAuthRequired fetched st) in
    authRequired st' = Some true /\
    isAuthenticated st' = isAuthenticated st /\
    (result = inl true <-> accepted fetched) /\
    (~ accepted fetched -> exists t, result = inr t) /\
    result <> inl false.
Proof.
  intros fetched st. cbv zeta.
  destruct (accepted_dec fetched)
    as [[Ha (status & body & -> & Hok)]
       | [Hn [(status & body & -> & Hok) | (t & ->)]]];
    unfold checkAuthRequired; try rewrite Hok.
  - cbn [fst snd authRequired isAuthenticated].
    repeat split; auto; try discriminate. intro. contradiction.
  - destruct (failed_to_fetch _);
      cbn [fst snd authRequired isAuthenticated];
      repeat split; auto; try discriminate; eauto; contradiction.
  - destruct (failed_to_fetch t);
      cbn [fst snd authRequired isAuthenticated];
      repeat split; auto; try discriminate; eauto; contradiction.
Qed.

End AuthStoreFacts.

(* ------------------------------------------------------------------ *)
(** ** The proxy target of the request middleware *)

Module EdgeFacts.
Import Edge.

Local Open Scope string_scope.

Lemma strip_slash_app : forall b, strip_slash (b ++ "/") = b.
Proof.
  induction b as [| c b IH]; [reflexivity |].
  simpl. destruct b as [| d b]; simpl in *; [reflexivity |].
  now rewrite IH.
Qed.

Lemma strip_slash_none : forall b, ends_with_slash b = false -> strip_slash b = b.
Proof.
  induction b as [| c b IH]; [reflexivity |].
  simpl. destruct b as [| d b].
  - intro H. now rewrite H.
  - intro H. now rewrite (IH H).
Qed.

Lemma app_slash_nonempty : forall b, (b ++ "/" =? "") = false.
Proof. destruct b; reflexivity. Qed.

(** X25: the proxy target is the backend URL without one trailing slash,
    followed by the request's path and query string as they came.  A
    backend URL written with and without a trailing slash therefore
    gives the same target and the same answer of the middleware, and an
    unset or empty INTERNAL_API_URL stands for http://localhost:15055. *)
Theorem proxy_target_ignores_trailing_slash :
  forall URL url pathname search b,
    b <> "" ->
    ends_with_slash b = false ->
    targetUrlStr (Some b) pathname search = b ++ pathname ++ search /\
    targetUrlStr (Some (b ++ "/")) pathname search = b ++ pathname ++ search /\
    middleware URL url pathname search (Some (b ++ "/"))
      = middleware URL url pathname search (Some b) /\
    targetUrlStr None pathname search
      = "http://localhost:15055" ++ pathname ++ search /\
    targetUrlStr (Some "") pathname search
      = "http://localhost:15055" ++ pathname ++ search.
Proof.
  intros URL url pathname search b Hne Hs.
  assert (E1 : targetUrlStr (Some b) pathname search = b ++ pathname ++ search).
  { unfold targetUrlStr, or_default. apply String.eqb_neq in Hne.
    rewrite Hne. now rewrite strip_slash_none. }
  assert (E2 : targetUrlStr (Some (b ++ "/")) pathname search
               = b ++ pathname ++ search).
  { unfold targetUrlStr, or_default. rewrite app_slash_nonempty.
    now rewrite strip_slash_app. }
  split; [exact E1 |]. split; [exact E2 |].
  split; [unfold middleware; now rewrite E1, E2 |].
  split; reflexivity.
Qed.

End EdgeFacts.

(* ------------------------------------------------------------------ *)
(** ** Sanitised file names *)

Module ExportFacts.
Import ExportUtils.

Local Open Scope N_scope.

Lemma in_firstn : forall (n : nat) (l : list N) c,
  In c (firstn n l) -> In c l.
Proof.
  intros n l c H. rewrite <- (firstn_skipn n l). apply in_or_app. now left.
Qed.

Lemma kept_split : forall c,
  kept c = true -> is_space c = false -> safe c = true \/ is_upper c = true.
Proof. intros c. unfold kept, safe, is_space, is_lower, is_upper, is_digit. lia. Qed.

Lemma safe_facts : forall c,
  safe c = true ->
  kept c = true /\ is_space c = false /\ is_upper c = false.
Proof. intros c. unfold kept, safe, is_space, is_lower, is_upper, is_digit. lia. Qed.

Lemma lower_unit_safe : forall c,
  kept c = true -> is_space c = false -> safe (lower_unit c) = true.
Proof.
  intros c. unfold lower_unit, kept, safe, is_space, is_lower, is_upper,
    is_digit.
  destruct ((65 <=? c) && (c <=? 90)) eqn:E; lia.
Qed.

(** After the two replacements only allowed code units that are no
    white space are left, all of them below 128. *)
Lemma collapse_ascii : forall s in_run,
  Forall (fun c => kept c = true) s ->
  Forall (fun c => (kept c = true /\ is_space c = false) /\ c < 128)
    (collapse in_run s).
Proof.
  induction s as [| c s IH]; intros in_run H; simpl; [constructor |].
  inversion H as [| x l Hc Hs]; subst.
  destruct (is_space c) eqn:E.
  - destruct in_run; [now apply IH |].
    constructor; [| now apply IH]. repeat split; reflexivity.
  - constructor; [| now apply IH]. split; [auto |].
    revert Hc E. unfold kept, is_space, is_lower, is_upper, is_digit. lia.
Qed.

Lemma filter_kept_all : forall s, Forall (fun c => kept c = true) (filter kept s).
Proof.
  intro s. apply Forall_forall. intros c Hin.
  now apply filter_In in Hin.
Qed.

Lemma collapse_nil : forall s, collapse false s = [] -> s = [].
Proof.
  intros [| c s]; simpl; [reflexivity |].
  destruct (is_space c); discriminate.
Qed.

(** X26: whatever the title, [sanitizeFilename] returns at most 255 code
    units, each of them a lower-case ASCII letter, a digit, a hyphen or
    an underscore: no dot, slash, backslash, colon, space or upper-case
    letter survives.  The result is empty exactly when the title has no
    letter, digit, white space, hyphen or underscore at all. *)
Theorem sanitizeFilename_safe :
  forall filename,
    (List.length (sanitizeFilename filename) <= 255)%nat /\
    Forall (fun c => safe c = true) (sanitizeFilename filename) /\
    (sanitizeFilename filename = [] <->
     Forall (fun c => kept c = false) filename).
Proof.
  intro s. unfold sanitizeFilename. split; [| split].
  - rewrite length_firstn. lia.
  - apply Forall_forall. intros c Hin. apply in_firstn in Hin.
    apply in_map_iff in Hin as (x & <- & Hx).
    pose proof (collapse_ascii _ false (filter_kept_all s)) as H.
    rewrite Forall_forall in H. destruct (H x Hx) as [[Hk Hsp] _].
    now apply lower_unit_safe.
  - split.
    + intro H.
      assert (Hf : filter kept s = []).
      { apply collapse_nil.
        destruct (collapse false (filter kept s)); [reflexivity |].
        discriminate H. }
      apply Forall_forall. intros c Hin.
      destruct (kept c) eqn:E; [| reflexivity].
      assert (Hin' : In c (filter kept s)) by (apply filter_In; auto).
      rewrite Hf in Hin'. destruct Hin'.
    + intro H. assert (Hf : filter kept s = []).
      { induction s as [| c s IH]; [reflexivity |].
        inversion H; subst. simpl. rewrite H2. now apply IH. }
      now rewrite Hf.
Qed.

Lemma sanitize_fixed : forall s,
  Forall (fun c => safe c = true) s -> (List.length s <= 255)%nat ->
  sanitizeFilename s = s.
Proof.
  intros s Hs. unfold sanitizeFilename.
  assert (Hf : filter kept s = s).
  { induction Hs as [| c s Hc _ IH]; [reflexivity |].
    simpl. destruct (safe_facts c Hc) as (-> & _). now rewrite IH. }
  assert (Hc : forall b, collapse b s = s).
  { clear Hf. induction Hs as [| c s Hc _ IH]; intro b; [reflexivity |].
    simpl. destruct (safe_facts c Hc) as (_ & -> & _). now rewrite IH. }
  assert (Hm : map lower_unit s = s).
  { clear Hf Hc. induction Hs as [| c s Hc0 _ IH]; [reflexivity |].
    simpl. unfold lower_unit at 1.
    destruct (safe_facts c Hc0) as (_ & _ & ->). now rewrite IH. }
  intro Hl. rewrite Hf, Hc, Hm. now apply firstn_all2.
Qed.

(** X27: [sanitizeFilename] is idempotent: a name that went through it
    comes back unchanged when sanitised again. *)
Theorem sanitizeFilename_idempotent :
  forall filename,
    sanitizeFilename (sanitizeFilename filename) = sanitizeFilename filename.
Proof.
  intro s.
  assert (H : (List.length (sanitizeFilename s) <= 255)%nat /\
              Forall (fun c => safe c = true) (sanitizeFilename s)).
  { unfold sanitizeFilename. split; [rewrite length_firstn; lia |].
    apply Forall_forall. intros c Hin. apply in_firstn in Hin.
    apply in_map_iff in Hin as (x & <- & Hx).
    pose proof (collapse_ascii _ false (filter_kept_all s)) as H.
    rewrite Forall_forall in H. destruct (H x Hx) as [[Hk Hsp] _].
    now apply lower_unit_safe. }
  destruct H as [Hl Hs]. now apply sanitize_fixed.
Qed.

End ExportFacts.

(* ------------------------------------------------------------------ *)
(** ** Runs of the database bootstrap, the store and the middleware *)

Module OtherRuns.

Import Surreal.

(** A client that rejects all five payloads with [undefined]: the
    fallback error is the one logged. *)
Lemma initSurreal_logged_error_witness :
  fst (initSurreal sample_env true mute)
    = (Connect "ws://surrealdb:8000/rpc"
       :: map Signin (signinAttempts sample_env))
      ++ retry (Object signin_failed) /\
  exists r, signin mute (fifth sample_env) = Some r /\
            truthy_value r = false.
Proof.
  assert (H : fst (initSurreal sample_env true mute)
              = (Connect "ws://surrealdb:8000/rpc"
                 :: map Signin (signinAttempts sample_env))
                ++ retry (Object signin_failed)) by reflexivity.
  split; [exact H |].
  destruct (SurrealFacts.initSurreal_logged_error _ _ _ _ _ H)
    as [Hc | [(_ & _ & r & Hf & _ & _) | (_ & Hu)]];
    [discriminate Hc | | discriminate Hu].
  exists r. split; [exact Hf |].
  assert (Hr : r = Undefined) by (cbn in Hf; congruence).
  rewrite Hr. reflexivity.
Defined.

(** The server comes up for the third run. *)
Lemma initSurreal_eventually_ready_witness :
  lets_in sample_env (booting 2) /\
  snd (runs sample_env booting 5 0 false) = Ready /\
  filter is_timeout (fst (runs sample_env booting 5 0 false))
    = [SetTimeout 5000; SetTimeout 5000].
Proof.
  assert (Hin : lets_in sample_env (booting 2)).
  { split; [reflexivity |]. split; [| reflexivity].
    exists [("user", "root"); ("pass", "secret");
            ("ns", "open_notebook"); ("db", "auth")].
    split; [| reflexivity]. simpl. tauto. }
  assert (Hout : forall j, (j < 2)%nat -> ~ lets_in sample_env (booting j)).
  { intros j Hj (Hc & _). unfold booting in Hc.
    destruct (Nat.ltb_spec j 2); [discriminate Hc | lia]. }
  split; [exact Hin |].
  exact (SurrealFacts.initSurreal_eventually_ready sample_env booting 2 5
           false Hout Hin (ltac:(lia))).
Defined.

Import AuthStore.

(** A user logs out and the page checks again while the cookies are
    still good. *)
Lemma logout_then_checkAuth_witness :
  let st := mkState true false None (Some 1000%Z) false true (Some true) in
  checked_recently 2000 st = true /\
  checkAuth 2000 (Response 200 None) st = (st, true, false) /\
  checkAuth 2000 (Response 200 None) (logout st)
    = (mkState true false None (Some 2000%Z) false true (Some true),
       true, true).
Proof.
  intro st. split; [reflexivity |]. split; [reflexivity |].
  exact (proj2 (proj2 (AuthStoreFacts.logout_then_checkAuth 2000 200 None st
                         eq_refl eq_refl))).
Defined.

Import Edge.

(** The backend URL with a trailing slash. *)
Lemma proxy_target_ignores_trailing_slash_witness :
  targetUrlStr (Some "http://backend:15055/") "/api/auth/login" "?next=1"
    = "http://backend:15055/api/auth/login?next=1"%string /\
  middleware (fun s => Some s) "http://localhost:3000/api/auth/login?next=1"
    "/api/auth/login" "?next=1" (Some "http://backend:15055/")
    = Rewrite "http://backend:15055/api/auth/login?next=1".
Proof.
  destruct (EdgeFacts.proxy_target_ignores_trailing_slash (fun s => Some s)
              "http://localhost:3000/api/auth/login?next=1"
              "/api/auth/login" "?next=1" "http://backend:15055")
    as (_ & E & Em & _); [discriminate | reflexivity |].
  split; [exact E |]. cbn [String.append] in Em. rewrite Em. reflexivity.
Defined.

End OtherRuns.
